(** * Scientific calculator: evaluation core and session handlers

    A shallow embedding of [scientific_calculator.py].  The script is a
    Streamlit page; what is embedded here is its computational content:

    - the string rewriting done before evaluation and before display
      ([transform_display], the substitutions of the equals button);
    - [safe_eval] and the three handlers (the equals button, "Calculate
      Integral", "Calculate Derivative") with their [try]/[except] blocks;
    - the session state ([history], [expression]) the handlers mutate;
    - the registry [allowed_funcs].

    SymPy, NumPy, SciPy and the Python runtime are not part of the
    repository.  They are taken as an interface ([Externals]) whose
    operations may return or raise; every statement about a handler is
    proved for all implementations of that interface. *)

From Stdlib Require Import NArith ZArith List Ascii String DecimalString DecimalNat DecimalFacts Floats Uint63 Lia.
From stdpp Require Import base decidable option list countable gmap fin_maps.
Import ListNotations.

Local Open Scope N_scope.
Local Open Scope list_scope.

(** ** Python strings

    A Python [str] is a sequence of Unicode code points.  The multiplication
    button's label is two code points long (U+2716 followed by the variation
    selector U+FE0F), so code points, not glyphs, are the unit. *)

Abbreviation pystr := (list N).

(** An ASCII literal as a [pystr]. *)
Definition lit (s : string) : pystr :=
  map N_of_ascii (list_ascii_of_string s).
Arguments lit : simpl never.

Module Glyph.
Definition plus_emoji : pystr := [0x2795].          (* '➕' *)
Definition minus_emoji : pystr := [0x2796].         (* '➖' *)
Definition divide_emoji : pystr := [0x2797].        (* '➗' *)
Definition multiply_emoji : pystr := [0x2716; 0xFE0F]. (* '✖️' *)
Definition backspace : pystr := [0x232B].           (* '⌫' *)
Definition times_sign : pystr := [0xD7].            (* '×' *)
Definition division_sign : pystr := [0xF7].         (* '÷' *)
Definition greek_pi : pystr := [0x3C0].             (* 'π' *)
Definition cross_mark : pystr := [0x274C].          (* '❌' *)
Definition check_mark : pystr := [0x2705].          (* '✅' *)
Definition bar_chart : pystr := [0x1F4CA].          (* '📊' *)
Definition integral_sign : pystr := [0x222B].       (* '∫' *)
End Glyph.

(** [is_prefix p s]: [s.startswith(p)]. *)
Fixpoint is_prefix (p s : pystr) : bool :=
  match p, s with
  | [], _ => true
  | _ :: _, [] => false
  | a :: p', b :: s' => if N.eqb a b then is_prefix p' s' else false
  end.

(** [str.replace(old, new)] for a non-empty [old] (every call site of the
    program passes a non-empty literal): occurrences are found left to
    right and do not overlap.  [skip] counts the code points of the
    occurrence just replaced that are still to be passed over. *)
Fixpoint replace_from (old new : pystr) (skip : nat) (s : pystr) : pystr :=
  match s with
  | [] => []
  | c :: s' =>
      match skip with
      | S k => replace_from old new k s'
      | O =>
          if is_prefix old s
          then new ++ replace_from old new (Nat.pred (length old)) s'
          else c :: replace_from old new O s'
      end
  end.

Definition replace (old new s : pystr) : pystr := replace_from old new O s.

(** ** Display transform and normalisation *)

(** [transform_display]: emoji operators to standard math symbols. *)
Definition transform_display (expression : pystr) : pystr :=
  replace Glyph.divide_emoji Glyph.division_sign
    (replace Glyph.multiply_emoji Glyph.times_sign
       (replace Glyph.minus_emoji (lit "-")
          (replace Glyph.plus_emoji (lit "+") expression))).

(** The substitutions of the equals button, in the order of the source:
    pi, plus, minus, divide, multiply, caret. *)
Definition normalize (expression : pystr) : pystr :=
  let eval_expr := expression in
  let eval_expr := replace Glyph.greek_pi (lit "pi") eval_expr in
  let eval_expr := replace Glyph.minus_emoji (lit "-")
                     (replace Glyph.plus_emoji (lit "+") eval_expr) in
  let eval_expr := replace (lit "^") (lit "**")
                     (replace Glyph.multiply_emoji (lit "*")
                        (replace Glyph.divide_emoji (lit "/") eval_expr)) in
  eval_expr.

(** The canonical arithmetic operators occurring in a string, in order. *)
Definition is_canonical_op (c : N) : bool :=
  (c =? 43) || (c =? 45) || (c =? 42) || (c =? 47).   (* + - * / *)

Definition canonical_ops (s : pystr) : pystr := filter (fun c => is_canonical_op c = true) s.

(** The substitution a one-code-point pattern performs on each code point. *)
Definition subst1 (a : N) (new : pystr) (c : N) : pystr :=
  if c =? a then new else [c].

(** Plus and minus rewriting, as both [transform_display] and the equals
    button perform it. *)
Definition plus_minus (s : pystr) : pystr :=
  flat_map (subst1 0x2796 (lit "-")) (flat_map (subst1 0x2795 (lit "+")) s).

(** "2", a lone U+2716 as the multiplication button followed by one
    backspace leaves it, then "➕π➖3^2": no multiplication token. *)
Definition sample_lone_heavy_x : pystr :=
  lit "2" ++ [0x2716] ++ Glyph.plus_emoji ++ Glyph.greek_pi ++ Glyph.minus_emoji ++ lit "3^2".

(** "2➕π➖3^2" *)
Definition sample_plus_minus : pystr :=
  lit "2" ++ Glyph.plus_emoji ++ Glyph.greek_pi ++ Glyph.minus_emoji ++ lit "3^2".

(** ** Exceptions

    The classes that the program names in its [except] clauses, and the
    built-in classes around them.  [SympifyError] derives from
    [ValueError] (sympy/core/sympify.py). *)

Inductive exn_class :=
  | BaseException | KeyboardInterrupt | Exception
  | ArithmeticError | ZeroDivisionError | OverflowError
  | AttributeError
  | LookupError | KeyError | IndexError
  | NameError | UnboundLocalError
  | RuntimeError | RecursionError | NotImplementedError
  | SyntaxError | IndentationError
  | TypeError
  | ValueError | SympifyError
  | MemoryError.

#[global] Instance exn_class_eq_dec : EqDecision exn_class.
Proof. solve_decision. Defined.

(** The direct base class. *)
Definition base_of (c : exn_class) : option exn_class :=
  match c with
  | BaseException => None
  | KeyboardInterrupt | Exception => Some BaseException
  | ZeroDivisionError | OverflowError => Some ArithmeticError
  | KeyError | IndexError => Some LookupError
  | UnboundLocalError => Some NameError
  | RecursionError | NotImplementedError => Some RuntimeError
  | IndentationError => Some SyntaxError
  | SympifyError => Some ValueError
  | ArithmeticError | AttributeError | LookupError | NameError
  | RuntimeError | SyntaxError | TypeError | ValueError | MemoryError =>
      Some Exception
  end.

Fixpoint issubclass_upto (depth : nat) (c d : exn_class) : bool :=
  if decide (c = d) then true
  else match depth, base_of c with
       | S k, Some b => issubclass_upto k b d
       | _, _ => false
       end.

(** The hierarchy above is three levels deep below [BaseException]. *)
Definition issubclass (c d : exn_class) : bool := issubclass_upto 4 c d.

Record exn := Exn { exn_type : exn_class; exn_message : pystr }.

(** [except (C1, ..., Cn)] catches [e] when [e] is an instance of one of
    the listed classes. *)
Definition caught_by (classes : list exn_class) (e : exn) : bool :=
  existsb (issubclass (exn_type e)) classes.

(** ** Computations that return or raise *)

Inductive result (A : Type) :=
  | Return (a : A)
  | Raise (e : exn).
Arguments Return {A} a.
Arguments Raise {A} e.

#[global] Instance result_ret : MRet result := fun _ a => Return a.
#[global] Instance result_bind : MBind result := fun _ _ f m =>
  match m with
  | Return a => f a
  | Raise e => Raise e
  end.

(** ** The registry *)

(** The objects the registry binds names to. *)
Inductive numeric_impl :=
  | np_sin | np_cos | np_tan
  | np_arcsin | np_arccos | np_arctan
  | np_sinh | np_cosh | np_tanh
  | np_log10 | np_log
  | np_sqrt | np_exp
  | np_pi | np_e
  | np_abs
  | math_factorial.

#[global] Instance numeric_impl_eq_dec : EqDecision numeric_impl.
Proof. solve_decision. Defined.

Definition allowed_funcs : gmap pystr numeric_impl :=
  list_to_map
    [ (lit "sin", np_sin); (lit "cos", np_cos); (lit "tan", np_tan);
      (lit "asin", np_arcsin); (lit "acos", np_arccos); (lit "atan", np_arctan);
      (lit "sinh", np_sinh); (lit "cosh", np_cosh); (lit "tanh", np_tanh);
      (lit "log", np_log10); (lit "ln", np_log);
      (lit "sqrt", np_sqrt); (lit "exp", np_exp);
      (lit "pi", np_pi); (lit "e", np_e);
      (lit "abs", np_abs);
      (lit "factorial", math_factorial) ].

(** The names the specification lists for the registry. *)
Definition registry_names : list pystr :=
  map lit [ "sin"; "cos"; "tan"; "asin"; "acos"; "atan"; "sinh"; "cosh"; "tanh";
            "log"; "ln"; "sqrt"; "exp"; "pi"; "e"; "abs"; "factorial" ]%string.

(** The registry as the specification words it: name by name, with [log]
    the base-10 logarithm and [ln] the natural logarithm. *)
Definition registry_per_spec (name : pystr) : option numeric_impl :=
  if decide (name = lit "sin") then Some np_sin
  else if decide (name = lit "cos") then Some np_cos
  else if decide (name = lit "tan") then Some np_tan
  else if decide (name = lit "asin") then Some np_arcsin
  else if decide (name = lit "acos") then Some np_arccos
  else if decide (name = lit "atan") then Some np_arctan
  else if decide (name = lit "sinh") then Some np_sinh
  else if decide (name = lit "cosh") then Some np_cosh
  else if decide (name = lit "tanh") then Some np_tanh
  else if decide (name = lit "log") then Some np_log10
  else if decide (name = lit "ln") then Some np_log
  else if decide (name = lit "sqrt") then Some np_sqrt
  else if decide (name = lit "exp") then Some np_exp
  else if decide (name = lit "pi") then Some np_pi
  else if decide (name = lit "e") then Some np_e
  else if decide (name = lit "abs") then Some np_abs
  else if decide (name = lit "factorial") then Some math_factorial
  else None.

(** ** Python values crossing the interface *)

(** A value that may be [None]. *)
Inductive pyval (O : Type) :=
  | PyNone
  | PyObj (o : O).
Arguments PyNone {O}.
Arguments PyObj {O} o.

(** What [local_dict.get(name, 0)] yields: a registry object or the
    integer default. *)
Inductive pyarg :=
  | ArgRegistry (f : numeric_impl)
  | ArgInt (z : Z).

(** An element of lambdify's [modules] list. *)
Inductive module_spec :=
  | Namespace (d : gmap pystr numeric_impl)
  | ModuleName (name : pystr).

Inductive modules_arg :=
  | Modules_list (l : list module_spec)
  | Modules_str (name : pystr).

(** lambdify's first argument: a set of symbols (in its iteration order)
    or a single object. *)
Inductive lambdify_params (O : Type) :=
  | Params_set (symbols : list O)
  | Params_one (x : O).
Arguments Params_set {O} symbols.
Arguments Params_one {O} x.

(** ** The libraries, as an interface

    Every operation that can raise in Python returns a [result].  String
    conversion of library objects ([str], and [format] as used by
    f-strings) is taken to be total. *)

Class Externals := {
  Obj : Type;
  sympify : pystr -> result Obj;
  (* [o.free_symbols] *)
  free_symbols : Obj -> result (list Obj);
  lambdify : lambdify_params Obj -> Obj -> modules_arg -> result Obj;
  (* [func] called with the keyword arguments [args] *)
  call_kwargs : Obj -> gmap pystr pyarg -> result (pyval Obj);
  (* [integrate.quad(f, a, b)], a pair (value, estimated error) *)
  quad : Obj -> float -> float -> result (Obj * Obj);
  (* [o.diff(x)] *)
  diff : Obj -> Obj -> result Obj;
  (* [o.subs(x, point)] *)
  subs : Obj -> Obj -> float -> result Obj;
  (* [o.evalf()] *)
  evalf : Obj -> result Obj;
  py_str : Obj -> pystr;
  py_format : Obj -> pystr;
  float_format : float -> pystr
}.

(** ** Session state and what a handler run leaves behind *)

(** [st.session_state]: the two keys the script uses. *)
Record session := Session { history : list pystr; expression : pystr }.

(** Messages put on the page by a handler. *)
Inductive ui_event :=
  | st_error (msg : pystr)
  | st_success (msg : pystr)
  | st_info (msg : pystr)
  | st_latex (msg : pystr).

(** How the handler's branch ends: it falls through, it calls
    [st.rerun()], or an exception leaves it. *)
Inductive ending :=
  | Completed
  | Rerun
  | Uncaught (e : exn).

Record run := Run { final : session; shown : list ui_event; ending_of : ending }.

Definition is_st_error (ev : ui_event) : bool :=
  match ev with st_error _ => true | _ => false end.

(** A run failed when it showed an error message or an exception escaped. *)
Definition failed (r : run) : bool :=
  existsb is_st_error (shown r) ||
  match ending_of r with Uncaught _ => true | _ => false end.

(** [sub in s]. *)
Fixpoint contains (sub s : pystr) : bool :=
  match s with
  | [] => is_prefix sub []
  | _ :: s' => is_prefix sub s || contains sub s'
  end.

(** [local_dict.get(name, 0)] *)
Definition binding_of (local_dict : gmap pystr numeric_impl) (name : pystr) : pyarg :=
  match local_dict !! name with
  | Some v => ArgRegistry v
  | None => ArgInt 0
  end.

Section Handlers.
Context `{E : Externals}.

(** *** safe_eval *)

(** [{str(s): local_dict.get(str(s), 0) for s in symbols}] *)
Definition build_args (symbols : list Obj) (local_dict : gmap pystr numeric_impl)
  : gmap pystr pyarg :=
  foldl (fun args s => <[py_str s := binding_of local_dict (py_str s)]> args) ∅ symbols.

(** The body of the [try] block. *)
Definition safe_eval_try (expr_str : pystr) (local_dict : gmap pystr numeric_impl)
  : result (pyval Obj) :=
  sympy_expr ← sympify expr_str;
  symbols ← free_symbols sympy_expr;
  func ← lambdify (Params_set symbols) sympy_expr
           (Modules_list [Namespace local_dict; ModuleName (lit "numpy")]);
  let args := build_args symbols local_dict in
  call_kwargs func args.

Definition safe_eval_except : list exn_class :=
  [SympifyError; NameError; TypeError; SyntaxError].

Definition invalid_expression : pystr := Glyph.cross_mark ++ lit " Invalid Expression".

(** Returns the value (or [None] after a caught exception) and the
    messages shown; an exception outside the [except] tuple leaves the
    function. *)
Definition safe_eval (expr_str : pystr) (local_dict : gmap pystr numeric_impl)
  : result (pyval Obj * list ui_event) :=
  match safe_eval_try expr_str local_dict with
  | Return v => Return (v, [])
  | Raise e =>
      if caught_by safe_eval_except e
      then Return (PyNone, [st_error invalid_expression])
      else Raise e
  end.

(** *** The button grid *)

(** The branch [label == '=']. *)
Definition on_equals (st : session) : run :=
  match expression st with
  | [] => Run st [] Completed
  | _ :: _ =>
      let eval_expr := normalize (expression st) in
      match safe_eval eval_expr allowed_funcs with
      | Raise e => Run st [] (Uncaught e)
      | Return (PyNone, evs) => Run st evs Completed
      | Return (PyObj result, evs) =>
          let entry := transform_display (expression st) ++ lit " = " ++ py_format result in
          Run (Session (history st ++ [entry]) (py_str result)) evs Rerun
      end
  end.

(** A press of the button labelled [label]. *)
Definition press (label : pystr) (st : session) : run :=
  if decide (label = lit "=") then on_equals st
  else if decide (label = lit "C") then
    Run (Session (history st) []) [] Rerun
  else if decide (label = Glyph.backspace) then
    Run (Session (history st) (removelast (expression st))) [] Rerun
  else
    Run (Session (history st) (expression st ++ label)) [] Rerun.

(** A press of a button of the function grid. *)
Definition press_func (label : pystr) (st : session) : run :=
  let added :=
    if decide (label = Glyph.greek_pi) then Glyph.greek_pi
    else if decide (label = lit "n!") then lit "factorial("
    else if contains (lit "()") label then removelast label
    else label in
  Run (Session (history st) (expression st ++ added)) [] Rerun.

(** *** Calculate Integral *)

Definition integral_try (func_str_int variable_int : pystr) (lower_limit upper_limit : float)
  : result (Obj * Obj) :=
  x ← sympify variable_int;
  sympy_func ← sympify func_str_int;
  f ← lambdify (Params_one x) sympy_func (Modules_str (lit "numpy"));
  quad f lower_limit upper_limit.

Definition calculus_except : list exn_class := [SympifyError; TypeError; ValueError].

Definition integral_entry (func_str_int : pystr) (lower_limit upper_limit : float)
    (result : Obj) : pystr :=
  Glyph.integral_sign ++ lit "(" ++ func_str_int ++ lit ") from "
    ++ float_format lower_limit ++ lit " to " ++ float_format upper_limit
    ++ lit " = " ++ py_format result.

Definition calculate_integral (func_str_int variable_int : pystr)
    (lower_limit upper_limit : float) (st : session) : run :=
  match integral_try func_str_int variable_int lower_limit upper_limit with
  | Return (result, error) =>
      Run (Session (history st ++ [integral_entry func_str_int lower_limit upper_limit result])
                   (expression st))
          [ st_success (Glyph.check_mark ++ lit " Result: " ++ py_format result);
            st_info (Glyph.bar_chart ++ lit " Estimated Error: " ++ py_format error) ]
          Completed
  | Raise e =>
      if caught_by calculus_except e
      then Run st [st_error (Glyph.cross_mark ++ lit " Error in integration: " ++ exn_message e)]
               Completed
      else Run st [] (Uncaught e)
  end.

(** *** Calculate Derivative *)

(** The values the [try] block has computed when it reaches its
    output statements. *)
Record derivative_vars := DerivativeVars {
  x_sym : Obj; sympy_func : Obj; derivative_expr : Obj; result_at_point : Obj }.

Definition derivative_try (func_str_diff variable_diff : pystr) (eval_point : float)
  : result derivative_vars :=
  x ← sympify variable_diff;
  f ← sympify func_str_diff;
  d ← diff f x;
  substituted ← subs d x eval_point;
  r ← evalf substituted;
  mret (DerivativeVars x f d r).

Definition derivative_latex (v : derivative_vars) : pystr :=
  lit "\frac{d}{d" ++ py_format (x_sym v) ++ lit "} \left( "
    ++ py_format (sympy_func v) ++ lit " \right) = " ++ py_format (derivative_expr v).

Definition derivative_entry (func_str_diff : pystr) (eval_point : float)
    (v : derivative_vars) : pystr :=
  lit "d/d" ++ py_format (x_sym v) ++ lit "(" ++ func_str_diff ++ lit ") at "
    ++ float_format eval_point ++ lit " = " ++ py_format (result_at_point v).

Definition calculate_derivative (func_str_diff variable_diff : pystr)
    (eval_point : float) (st : session) : run :=
  match derivative_try func_str_diff variable_diff eval_point with
  | Return v =>
      Run (Session (history st ++ [derivative_entry func_str_diff eval_point v])
                   (expression st))
          [ st_success (Glyph.check_mark ++ lit " Derivative at x=" ++ float_format eval_point
                          ++ lit ": " ++ py_format (result_at_point v));
            st_latex (derivative_latex v) ]
          Completed
  | Raise e =>
      if caught_by calculus_except e
      then Run st [st_error (Glyph.cross_mark ++ lit " Error in differentiation: "
                               ++ exn_message e)]
               Completed
      else Run st [] (Uncaught e)
  end.

End Handlers.

(** ** Operation requests *)

(** The three operations of the page.  [Evaluate] reads the expression
    under construction from the session, as the equals button does. *)
Inductive request :=
  | Evaluate
  | Integrate (expr variable : pystr) (lower upper : float)
  | Differentiate (expr variable : pystr) (point : float).

Definition handle `{E : Externals} (rq : request) (st : session) : run :=
  match rq with
  | Evaluate => on_equals st
  | Integrate expr variable lower upper => calculate_integral expr variable lower upper st
  | Differentiate expr variable point => calculate_derivative expr variable point st
  end.

(** The [except] tuple guarding each operation. *)
Definition except_of (rq : request) : list exn_class :=
  match rq with
  | Evaluate => safe_eval_except
  | Integrate _ _ _ _ | Differentiate _ _ _ => calculus_except
  end.

(** The message shown when the operation's [except] clause runs. *)
Definition error_message (rq : request) (e : exn) : pystr :=
  match rq with
  | Evaluate => invalid_expression
  | Integrate _ _ _ _ => Glyph.cross_mark ++ lit " Error in integration: " ++ exn_message e
  | Differentiate _ _ _ =>
      Glyph.cross_mark ++ lit " Error in differentiation: " ++ exn_message e
  end.

(** The body of the [try] block of each operation, with its value dropped. *)
Definition try_of `{E : Externals} (rq : request) (st : session) : result unit :=
  match rq with
  | Evaluate =>
      match expression st with
      | [] => Return tt
      | _ :: _ => _ ← safe_eval_try (normalize (expression st)) allowed_funcs; mret tt
      end
  | Integrate expr variable lower upper => _ ← integral_try expr variable lower upper; mret tt
  | Differentiate expr variable point => _ ← derivative_try expr variable point; mret tt
  end.

(** ** A small implementation of the interface

    A test double for the libraries, used to run the handlers on a few
    concrete requests.  On what it knows it answers as SymPy, NumPy and
    SciPy do; on everything else it raises [NotImplementedError] with
    the text [outside the test double], and nothing is read off such a
    run.  It does no arithmetic, no calculus and no quadrature. *)

Module Mock.

Inductive mobj :=
  | MInt (z : Z)                          (* a Python int or SymPy Integer *)
  | MFloat (x : float)                    (* a Python float *)
  | MSymbol (name : pystr)                (* a SymPy Symbol *)
  | MApply (fname : pystr) (arg : mobj)   (* an applied undefined function *)
  | MBuiltin (f : numeric_impl)           (* an object of the registry *)
  | MLambda (params : list pystr) (body : mobj) (namespace : gmap pystr numeric_impl).

Definition x_ : mobj := MSymbol (lit "x").
Definition e_ : mobj := MSymbol (lit "e").

Definition outside : exn := Exn NotImplementedError (lit "outside the test double").

(** The strings the double parses, with what [sympify] makes of them:
    symbols, the integer [2+3*4] is evaluated to, and applications of the
    undefined function [foo]. *)
Definition parse_table : list (pystr * mobj) :=
  [ (lit "x", x_);
    (lit "y", MSymbol (lit "y"));
    (lit "e", e_);
    (lit "2+3*4", MInt 14);
    (lit "foo(2)", MApply (lit "foo") (MInt 2));
    (lit "foo(x)", MApply (lit "foo") x_) ].

(** The strings the double knows to be syntax errors. *)
Definition unparsable : list pystr := [lit "2+"; lit "2++"].

Fixpoint lookup_table (s : pystr) (t : list (pystr * mobj)) : option mobj :=
  match t with
  | [] => None
  | (k, v) :: t' => if decide (s = k) then Some v else lookup_table s t'
  end.

(** [str] of the [SympifyError] that wraps a syntax error. *)
Definition sympify_error (s : pystr) : exn :=
  Exn SympifyError
    (lit "Sympify of expression 'could not parse '" ++ s
       ++ lit "'' failed, because of exception being raised:" ++ [10]
       ++ lit "SyntaxError: invalid syntax (<string>, line 1)").

Definition m_sympify (s : pystr) : result mobj :=
  match lookup_table s parse_table with
  | Some o => Return o
  | None => if decide (s ∈ unparsable) then Raise (sympify_error s) else Raise outside
  end.

Fixpoint symbols_of (o : mobj) : list pystr :=
  match o with
  | MSymbol n => [n]
  | MApply _ a => symbols_of a
  | _ => []
  end.

Definition m_free_symbols (o : mobj) : result (list mobj) :=
  match o with
  | MLambda _ _ _ | MBuiltin _ | MFloat _ => Raise outside
  | _ => Return (map MSymbol (remove_dups (symbols_of o)))
  end.

Definition namespace_of (m : modules_arg) : gmap pystr numeric_impl :=
  match m with
  | Modules_list (Namespace d :: _) => d
  | _ => ∅
  end.

Definition param_name (o : mobj) : result pystr :=
  match o with
  | MSymbol n => Return n
  | _ => Raise outside
  end.

Definition m_lambdify (ps : lambdify_params mobj) (body : mobj) (m : modules_arg)
  : result mobj :=
  names ← match ps with
          | Params_set l => mapM param_name l
          | Params_one x => n ← param_name x; mret [n]
          end;
  mret (MLambda names body (namespace_of m)).

Definition name_error (n : pystr) : exn :=
  Exn NameError (lit "name '" ++ n ++ lit "' is not defined").

(** The function names the double knows to be defined nowhere: not in the
    registry, not in NumPy. *)
Definition undefined_functions : list pystr := [lit "foo"].

(** Running the generated function's body.  lambdify binds every Symbol
    of the expression to itself in the function's namespace, so a symbol
    that is not a parameter evaluates to the Symbol; the name of an
    undefined function is bound nowhere and looking it up raises
    [NameError], before the argument is evaluated. *)
Definition eval (env : gmap pystr mobj) (ns : gmap pystr numeric_impl) (o : mobj)
  : result mobj :=
  match o with
  | MSymbol n => Return (default (MSymbol n) (env !! n))
  | MApply f _ =>
      match ns !! f with
      | Some _ => Raise outside
      | None => if decide (f ∈ undefined_functions) then Raise (name_error f)
                else Raise outside
      end
  | _ => Return o
  end.

Definition arg_value (a : pyarg) : mobj :=
  match a with
  | ArgInt z => MInt z
  | ArgRegistry f => MBuiltin f
  end.

(** A call with keyword arguments that are not exactly the parameters is
    a [TypeError]. *)
Definition m_call_kwargs (f : mobj) (args : gmap pystr pyarg) : result (pyval mobj) :=
  match f with
  | MLambda params body ns =>
      if decide (dom args = list_to_set params)
      then v ← eval (arg_value <$> args) ns body; mret (PyObj v)
      else Raise (Exn TypeError (lit "_lambdifygenerated() got an unexpected keyword argument"))
  | _ => Raise outside
  end.

(** [f(x)] for a float [x], as quadrature calls the integrand. *)
Definition call_float (f : mobj) (x : float) : result mobj :=
  match f with
  | MLambda [p] body ns => eval {[ p := MFloat x ]} ns body
  | _ => Raise outside
  end.

(** [quad] starts by calling the integrand at the centre of the interval.
    An exception of the integrand passes through [quad]; an integrand
    that returns a SymPy expression makes [quad] fail with the
    [TypeError] of the conversion to float.  The double integrates
    nothing. *)
Definition m_quad (f : mobj) (a b : float) : result (mobj * mobj) :=
  v ← call_float f ((a + b) / 2)%float;
  match v with
  | MSymbol _ | MApply _ _ => Raise (Exn TypeError (lit "Cannot convert expression to float"))
  | _ => Raise outside
  end.

Definition m_diff (o x : mobj) : result mobj := Raise outside.
Definition m_subs (o x : mobj) (point : float) : result mobj := Raise outside.
Definition m_evalf (o : mobj) : result mobj := Raise outside.

(** [str] of a Python int. *)
Definition Z_str (z : Z) : pystr := lit (NilZero.string_of_int (Z.to_int z)).

(** The nearest integer to a finite float. *)
Definition nearest_Z (y : float) : option Z :=
  match Prim2SF y with
  | S754_zero _ => Some 0%Z
  | S754_finite s m e =>
      let v := (if 0 <=? e then Z.pos m * 2 ^ e
                else (Z.pos m + 2 ^ (- e - 1)) / 2 ^ (- e))%Z in
      Some (if s then (- v)%Z else v)
  | _ => None
  end.

(** The digits after the point of [r / 10000], without trailing zeros but
    with at least one digit. *)
Definition fraction_digits (r : Z) : pystr :=
  let d1 := (r / 1000)%Z in
  let d2 := (r / 100 mod 10)%Z in
  let d3 := (r / 10 mod 10)%Z in
  let d4 := (r mod 10)%Z in
  if (r mod 1000 =? 0)%Z then Z_str d1
  else if (r mod 100 =? 0)%Z then Z_str d1 ++ Z_str d2
  else if (r mod 10 =? 0)%Z then Z_str d1 ++ Z_str d2 ++ Z_str d3
  else Z_str d1 ++ Z_str d2 ++ Z_str d3 ++ Z_str d4.

(** [repr] of a Python float, for the floats the page's number inputs
    hold when filled in with up to four decimals: the float nearest to
    [n / 10000] with [|n| < 10^15] prints as that decimal.  Other floats
    are outside the double. *)
Definition m_float_format (x : float) : pystr :=
  match nearest_Z (x * 10000)%float with
  | Some n =>
      let a := Z.abs n in
      let back := (PrimFloat.of_uint63 (Uint63.of_Z a) / 10000)%float in
      if ((a <? 10 ^ 15)%Z && (PrimFloat.abs x =? back)%float)%bool
      then (if ((x <? 0) || (1 / x <? 0))%float then lit "-" else [])
             ++ Z_str (a / 10000) ++ lit "." ++ fraction_digits (a mod 10000)
      else lit "<float outside the test double>"
  | None => lit "<float outside the test double>"
  end.

(** [str] of the objects of the registry. *)
Definition impl_str (f : numeric_impl) : pystr :=
  let ufunc name := lit "<ufunc '" ++ lit name ++ lit "'>" in
  match f with
  | np_sin => ufunc "sin"%string | np_cos => ufunc "cos"%string
  | np_tan => ufunc "tan"%string
  | np_arcsin => ufunc "arcsin"%string | np_arccos => ufunc "arccos"%string
  | np_arctan => ufunc "arctan"%string
  | np_sinh => ufunc "sinh"%string | np_cosh => ufunc "cosh"%string
  | np_tanh => ufunc "tanh"%string
  | np_log10 => ufunc "log10"%string | np_log => ufunc "log"%string
  | np_sqrt => ufunc "sqrt"%string | np_exp => ufunc "exp"%string
  | np_abs => ufunc "absolute"%string
  | np_pi => lit "3.141592653589793"
  | np_e => lit "2.718281828459045"
  | math_factorial => lit "<built-in function factorial>"
  end.

(** [str]; a generated function prints with its address, left out here. *)
Fixpoint m_str (o : mobj) : pystr :=
  match o with
  | MInt z => Z_str z
  | MFloat x => m_float_format x
  | MSymbol n => n
  | MApply f a => f ++ lit "(" ++ m_str a ++ lit ")"
  | MBuiltin f => impl_str f
  | MLambda _ _ _ => lit "<function _lambdifygenerated>"
  end.

#[export] Instance externals : Externals := {|
  Obj := mobj;
  sympify := m_sympify;
  free_symbols := m_free_symbols;
  lambdify := m_lambdify;
  call_kwargs := m_call_kwargs;
  quad := m_quad;
  diff := m_diff;
  subs := m_subs;
  evalf := m_evalf;
  py_str := m_str;
  py_format := m_str;
  float_format := m_float_format
|}.

Definition fresh : session := Session [] [].

(** One calculation done, [foo(2)] typed. *)
Definition typed_foo : session := Session [lit "1+1 = 2"] (lit "foo(2)").

(** Nothing done yet, [2+3*4] typed. *)
Definition typed_sum : session := Session [] (lit "2+3*4").

(** Nothing done yet, [2+] typed. *)
Definition typed_incomplete : session := Session [] (lit "2+").

End Mock.

(** ** The rest of the page

    The display area, the two button tables with their widget keys, the
    history sidebar, and the page as a whole: one user action per run of
    the script. *)

(** The display area: [expression if expression else "0"], transformed. *)
Definition display_text (st : session) : pystr :=
  transform_display (match expression st with
                     | [] => lit "0"
                     | _ :: _ => expression st
                     end).

(** [buttons] *)
Definition buttons : list (list pystr) :=
  [ [lit "7"; lit "8"; lit "9"; Glyph.divide_emoji];
    [lit "4"; lit "5"; lit "6"; Glyph.multiply_emoji];
    [lit "1"; lit "2"; lit "3"; Glyph.minus_emoji];
    [lit "0"; lit "("; lit ")"; Glyph.plus_emoji];
    [lit "."; lit "C"; Glyph.backspace; lit "="] ].

(** [func_buttons] *)
Definition func_buttons : list (list pystr) :=
  [ [lit "sin()"; lit "cos()"; lit "tan()"];
    [lit "asin()"; lit "acos()"; lit "atan()"];
    [lit "log()"; lit "ln()"; lit "sqrt()"];
    [lit "exp()"; Glyph.greek_pi; lit "e"];
    [lit "abs()"; lit "n!"; lit "^"] ].

(** The labels of the button grid that do not extend the expression. *)
Definition control_labels : list pystr := [lit "="; lit "C"; Glyph.backspace].

(** [str(n)] for a non-negative integer. *)
Definition decimal (n : nat) : pystr := lit (NilZero.string_of_uint (Nat.to_uint n)).

(** One read-only text area of the sidebar. *)
Record history_area := HistoryArea {
  area_label : pystr; area_value : pystr; area_key : pystr }.

(** The loop over [enumerate(reversed(history))]. *)
Definition history_areas (hist : list pystr) : list history_area :=
  imap (fun i entry =>
          HistoryArea (lit "#" ++ decimal (length hist - i)) entry (lit "hist_" ++ decimal i))
       (reverse hist).

(** What the sidebar shows under its header: the areas and the clear
    button, or the note that there is nothing yet. *)
Inductive sidebar_view :=
  | Areas_and_clear (areas : list history_area)
  | No_calculations (note : pystr).

Definition sidebar (st : session) : sidebar_view :=
  match history st with
  | [] => No_calculations (lit "No calculations yet.")
  | _ :: _ => Areas_and_clear (history_areas (history st))
  end.

(** The clear button exists only while the history is not empty. *)
Definition clear_history (st : session) : run :=
  match history st with
  | [] => Run st [] Completed
  | _ :: _ => Run (Session [] (expression st)) [] Rerun
  end.

(** What the user can do in one run of the script. *)
Inductive action :=
  | Press (label : pystr)
  | PressFunc (label : pystr)
  | Calculate (rq : request)
  | ClearHistory.

Definition act `{E : Externals} (a : action) (st : session) : run :=
  match a with
  | Press label => press label st
  | PressFunc label => press_func label st
  | Calculate rq => handle rq st
  | ClearHistory => clear_history st
  end.

(** The session after a sequence of runs. *)
Definition act_all `{E : Externals} (actions : list action) (st : session) : session :=
  foldl (fun s a => final (act a s)) st actions.

Definition is_clear_history (a : action) : bool :=
  match a with ClearHistory => true | _ => false end.

(** [n] presses of the backspace button. *)
Definition backspaces `{E : Externals} (n : nat) (st : session) : session :=
  act_all (replicate n (Press Glyph.backspace)) st.

(** A sample session on the test double: clear, type 2+3*4 on the
    buttons, evaluate, an integral that shows an error, an integral whose
    exception escapes. *)
Definition sample_actions : list action :=
  [ Press (lit "C"); Press (lit "2"); Press Glyph.plus_emoji; Press (lit "3");
    Press Glyph.multiply_emoji; Press (lit "4"); Press (lit "=");
    Calculate (Integrate (lit "y") (lit "x") 0 1);
    Calculate (Integrate (lit "foo(x)") (lit "x") 0 1) ].

(** * Properties *)

(** ** String rewriting *)

Example normalize_sample :
  normalize (lit "2" ++ Glyph.multiply_emoji ++ Glyph.greek_pi ++ lit "^2")
  = lit "2*pi**2".
Proof. reflexivity. Qed.

(** Occurrences are taken left to right and do not overlap:
    ["aaa".replace("aa", "b") == "ba"]. *)
Example replace_leftmost_first :
  replace (lit "aa") (lit "b") (lit "aaa") = lit "ba".
Proof. reflexivity. Qed.

Lemma is_prefix_nil (s : pystr) : is_prefix [] s = true.
Proof. destruct s; reflexivity. Qed.

Lemma replace_single (a : N) (new s : pystr) :
  replace [a] new s = flat_map (subst1 a new) s.
Proof.
  unfold replace. induction s as [|c s IH]; [reflexivity|].
  cbn [replace_from is_prefix flat_map]. unfold subst1 at 1.
  rewrite N.eqb_sym. destruct (c =? a); cbn; now rewrite IH.
Qed.

(** A pattern whose first code point does not occur is never found. *)
Lemma replace_absent (a : N) (rest new s : pystr) :
  a ∉ s -> replace (a :: rest) new s = s.
Proof.
  unfold replace. induction s as [|c s IH]; intros Hs; [reflexivity|].
  apply not_elem_of_cons in Hs as [Hne Hs].
  cbn [replace_from is_prefix].
  destruct (N.eqb_spec a c) as [->|_]; [contradiction|].
  now rewrite IH.
Qed.

Lemma absent_flat_map (a : N) (f : N -> pystr) (s : pystr) :
  (forall c, c ∈ s -> a ∉ f c) -> a ∉ flat_map f s.
Proof.
  induction s as [|c s IH]; intros Hf; cbn.
  - apply not_elem_of_nil.
  - rewrite elem_of_app. intros [H|H].
    + apply (Hf c); [left|exact H].
    + apply IH; [|exact H]. intros d Hd. apply Hf. now right.
Qed.

Lemma absent_subst1 (a b : N) (new s : pystr) :
  a ∉ new -> a ∉ s -> a ∉ flat_map (subst1 b new) s.
Proof.
  intros Hnew Hs. apply absent_flat_map. intros c Hc. unfold subst1.
  destruct (c =? b); [exact Hnew|].
  intros H. apply list_elem_of_singleton in H. now subst.
Qed.

Lemma absent_plus_minus (a : N) (s : pystr) :
  a <> 43 -> a <> 45 -> a ∉ s -> a ∉ plus_minus s.
Proof.
  intros H1 H2 Hs. unfold plus_minus.
  apply absent_subst1; [intros H; apply list_elem_of_singleton in H; contradiction|].
  apply absent_subst1; [intros H; apply list_elem_of_singleton in H; contradiction|].
  exact Hs.
Qed.

(** Rewriting plus and minus before pi and plus and minus changes nothing. *)
Lemma plus_minus_pi_absorbs (s : pystr) :
  plus_minus (flat_map (subst1 0x3C0 (lit "pi")) (plus_minus s))
  = plus_minus (flat_map (subst1 0x3C0 (lit "pi")) s).
Proof.
  unfold plus_minus. induction s as [|c s IH]; [reflexivity|].
  cbn [flat_map]. rewrite !flat_map_app, IH. f_equal.
  destruct (N.eqb_spec c 0x2795) as [->|H1]; [reflexivity|].
  destruct (N.eqb_spec c 0x3C0) as [->|H2]; [reflexivity|].
  destruct (N.eqb_spec c 0x2796) as [->|H3]; [reflexivity|].
  apply N.eqb_neq in H1, H2, H3. unfold subst1.
  repeat (rewrite ?H1, ?H2, ?H3; cbn [flat_map app]).
  reflexivity.
Qed.

(** ** More on string rewriting *)

Lemma is_prefix_cons (a c : N) (p t : pystr) :
  is_prefix (a :: p) (c :: t) = (a =? c) && is_prefix p t.
Proof. cbn [is_prefix]. now destruct (a =? c). Qed.

(** Replacement only ever adds code points of [new]. *)
Lemma absent_replace_from (x : N) (old new : pystr) (skip : nat) (s : pystr) :
  x ∉ s -> x ∉ new -> x ∉ replace_from old new skip s.
Proof.
  intros Hs Hnew. revert skip. induction s as [|c s IH]; intros skip; [exact Hs|].
  apply not_elem_of_cons in Hs as [Hne Hs]. cbn [replace_from].
  destruct skip as [|k]; [|now apply IH].
  destruct (is_prefix old (c :: s)).
  - rewrite elem_of_app. intros [H|H]; [contradiction|]. now apply (IH Hs) in H.
  - rewrite elem_of_cons. intros [H|H]; [contradiction|]. now apply (IH Hs) in H.
Qed.

Lemma absent_replace (x : N) (old new s : pystr) :
  x ∉ s -> x ∉ new -> x ∉ replace old new s.
Proof. apply absent_replace_from. Qed.

(** A one-code-point pattern is gone after its replacement. *)
Lemma absent_after_subst1 (a : N) (new s : pystr) :
  a ∉ new -> a ∉ flat_map (subst1 a new) s.
Proof.
  intros Hnew. apply absent_flat_map. intros c _. unfold subst1.
  destruct (N.eqb_spec c a) as [->|Hne]; [exact Hnew|].
  intros H. apply list_elem_of_singleton in H. congruence.
Qed.

(** A pattern that does not occur is not replaced. *)
Lemma replace_no_occurrence (old new s : pystr) :
  contains old s = false -> replace old new s = s.
Proof.
  unfold replace. induction s as [|c s IH]; intros H; [reflexivity|].
  cbn [contains] in H. apply orb_false_iff in H as [Hp Hc].
  cbn [replace_from]. rewrite Hp. now rewrite IH.
Qed.

(** How a two-code-point pattern is replaced. *)
Lemma replace_pair_nil (a b : N) (new : pystr) : replace [a; b] new [] = [].
Proof. reflexivity. Qed.

Lemma replace_pair_one (a b : N) (new : pystr) (c : N) : replace [a; b] new [c] = [c].
Proof. unfold replace. cbn. now destruct (a =? c). Qed.

Lemma replace_pair_cons (a b : N) (new : pystr) (c d : N) (s : pystr) :
  replace [a; b] new (c :: d :: s)
  = if (a =? c) && (b =? d) then new ++ replace [a; b] new s
    else c :: replace [a; b] new (d :: s).
Proof.
  unfold replace. cbn [replace_from]. rewrite !is_prefix_cons, is_prefix_nil, andb_true_r.
  destruct ((a =? c) && (b =? d)); reflexivity.
Qed.

Lemma contains_pair_app (a b : N) (n t : pystr) :
  a ∉ n -> contains [a; b] (n ++ t) = contains [a; b] t.
Proof.
  induction n as [|x n IH]; intros Hn; [reflexivity|].
  apply not_elem_of_cons in Hn as [Hne Hn].
  cbn [app contains]. rewrite is_prefix_cons.
  destruct (N.eqb_spec a x) as [->|_]; [contradiction|]. cbn. now apply IH.
Qed.

Lemma is_prefix_single_head (b : N) (t : pystr) :
  is_prefix [b] t = true <-> head t = Some b.
Proof.
  destruct t as [|c t]; cbn; [split; discriminate|].
  destruct (N.eqb_spec b c) as [->|Hne]; split; try done.
  intros [= ->]. contradiction.
Qed.

(** Where the replacement of a pair starts with the pair's second code
    point, so did the string. *)
Lemma head_replace_pair (a b x : N) (new s : pystr) :
  b ∉ x :: new ->
  head (replace [a; b] (x :: new) s) = Some b -> head s = Some b.
Proof.
  intros Hb. destruct s as [|c [|d s]].
  - discriminate.
  - now rewrite replace_pair_one.
  - rewrite replace_pair_cons. destruct ((a =? c) && (b =? d)); [|done].
    cbn. intros [= ->]. exfalso. apply Hb. left.
Qed.

Lemma no_pair_after_replace_upto (a b x : N) (new : pystr) (n : nat) (s : pystr) :
  a ∉ x :: new -> b ∉ x :: new -> (length s <= n)%nat ->
  contains [a; b] (replace [a; b] (x :: new) s) = false.
Proof.
  intros Ha Hb. revert s. induction n as [|n IH]; intros s Hlen.
  - destruct s; [reflexivity|cbn in Hlen; lia].
  - destruct s as [|c [|d s]].
    + reflexivity.
    + rewrite replace_pair_one. cbn [contains]. rewrite is_prefix_cons. cbn.
      now rewrite andb_false_r.
    + rewrite replace_pair_cons. destruct ((a =? c) && (b =? d)) eqn:Hmatch.
      * rewrite contains_pair_app by exact Ha. apply IH. cbn in Hlen. lia.
      * cbn [contains]. rewrite IH by (cbn in *; lia). rewrite orb_false_r.
        rewrite is_prefix_cons. apply andb_false_iff.
        destruct (N.eqb_spec a c) as [->|Hne]; [right|now left].
        rewrite andb_true_l in Hmatch.
        destruct (is_prefix [b] (replace [c; b] (x :: new) (d :: s))) eqn:Hp; [|reflexivity].
        apply is_prefix_single_head, head_replace_pair in Hp; [|exact Hb].
        cbn in Hp. injection Hp as ->. now rewrite N.eqb_refl in Hmatch.
Qed.

(** After the replacement of a pair by text that has neither of its code
    points, the pair occurs nowhere. *)
Lemma no_pair_after_replace (a b x : N) (new s : pystr) :
  a ∉ x :: new -> b ∉ x :: new ->
  contains [a; b] (replace [a; b] (x :: new) s) = false.
Proof. intros Ha Hb. now apply (no_pair_after_replace_upto a b x new (length s)). Qed.

(** Rewriting single code points into text without the pair's code points
    creates no occurrence of the pair. *)
Lemma no_pair_flat_map (a b c x : N) (n t : pystr) :
  a ∉ x :: n -> b ∉ x :: n ->
  contains [a; b] t = false ->
  contains [a; b] (flat_map (subst1 c (x :: n)) t) = false.
Proof.
  intros Ha Hb. induction t as [|y t IH]; intros H; [reflexivity|].
  cbn [contains] in H. apply orb_false_iff in H as [Hp Hc].
  cbn [flat_map]. unfold subst1 at 1. destruct (y =? c).
  - rewrite contains_pair_app by exact Ha. now apply IH.
  - cbn [app contains]. rewrite (IH Hc), orb_false_r.
    rewrite is_prefix_cons in Hp |- *. apply andb_false_iff in Hp as [Hp|Hp];
      apply andb_false_iff; [now left|right].
    destruct (is_prefix [b] (flat_map (subst1 c (x :: n)) t)) eqn:Hq; [|reflexivity].
    apply is_prefix_single_head in Hq.
    destruct t as [|z t]; [discriminate|].
    cbn [flat_map] in Hq. unfold subst1 at 1 in Hq. destruct (z =? c).
    + cbn in Hq. injection Hq as ->. exfalso. apply Hb. left.
    + cbn in Hq. injection Hq as ->. rewrite is_prefix_cons, N.eqb_refl in Hp. discriminate.
Qed.

Ltac absent_closed := apply (bool_decide_unpack _); vm_compute; exact I.

Ltac absent_step :=
  first [ apply absent_after_subst1; absent_closed
        | apply absent_subst1; [absent_closed|]
        | apply absent_replace; [|absent_closed] ].

(** Plus and minus rewriting creates no multiplication token. *)
Lemma no_token_plus_minus (s : pystr) :
  contains Glyph.multiply_emoji s = false ->
  contains Glyph.multiply_emoji (plus_minus s) = false.
Proof.
  intros H. unfold plus_minus, Glyph.multiply_emoji.
  change (lit "-") with [45]. apply no_pair_flat_map; [absent_closed..|].
  change (lit "+") with [43]. now apply no_pair_flat_map; [absent_closed..|].
Qed.

Lemma transform_display_plus_minus (s : pystr) :
  contains Glyph.multiply_emoji s = false -> 0x2797 ∉ s ->
  transform_display s = plus_minus s.
Proof.
  intros Hm Hd. unfold transform_display, Glyph.plus_emoji, Glyph.minus_emoji.
  rewrite !replace_single. fold (plus_minus s).
  rewrite (replace_no_occurrence Glyph.multiply_emoji) by now apply no_token_plus_minus.
  unfold Glyph.divide_emoji.
  now rewrite (replace_absent 0x2797) by (apply absent_plus_minus; [discriminate..|exact Hd]).
Qed.

Lemma normalize_plus_minus (s : pystr) :
  contains Glyph.multiply_emoji s = false -> 0x2797 ∉ s ->
  normalize s
  = flat_map (subst1 94 (lit "**")) (plus_minus (flat_map (subst1 0x3C0 (lit "pi")) s)).
Proof.
  intros Hm Hd.
  assert (Hd' : 0x2797 ∉ plus_minus (flat_map (subst1 0x3C0 (lit "pi")) s)).
  { apply absent_plus_minus; [discriminate..|].
    apply absent_subst1; [absent_closed|exact Hd]. }
  assert (Hm' : contains Glyph.multiply_emoji
                  (plus_minus (flat_map (subst1 0x3C0 (lit "pi")) s)) = false).
  { apply no_token_plus_minus. unfold Glyph.multiply_emoji.
    change (lit "pi") with [112; 105]. now apply no_pair_flat_map; [absent_closed..|]. }
  unfold normalize, Glyph.greek_pi, Glyph.plus_emoji, Glyph.minus_emoji.
  rewrite !replace_single. fold (plus_minus (flat_map (subst1 0x3C0 (lit "pi")) s)).
  unfold Glyph.divide_emoji. rewrite (replace_absent 0x2797) by exact Hd'.
  rewrite (replace_no_occurrence Glyph.multiply_emoji) by exact Hm'.
  change (lit "^") with [94]. now rewrite replace_single.
Qed.

(** ** Display and normalisation of the operator glyphs *)

Example display_then_normalize_plus :
  normalize (transform_display Glyph.plus_emoji) = lit "+"
  /\ normalize Glyph.plus_emoji = lit "+".
Proof. split; reflexivity. Qed.

Example display_then_normalize_minus :
  normalize (transform_display Glyph.minus_emoji) = lit "-"
  /\ normalize Glyph.minus_emoji = lit "-".
Proof. split; reflexivity. Qed.

(** The equals button has no substitution for the display glyphs of
    multiplication and division: they pass through unchanged. *)
Example display_then_normalize_divide :
  normalize (transform_display Glyph.divide_emoji) = Glyph.division_sign
  /\ normalize Glyph.divide_emoji = lit "/".
Proof. split; reflexivity. Qed.

(** C2, as stated, fails: displaying the multiplication token gives the
    glyph [×], which the normaliser's substitutions leave as it is, while
    the token itself normalises to [*].  The re-derived string contains no
    canonical operator at all. *)
Lemma display_roundtrip_multiply_fails :
  normalize (transform_display (lit "2" ++ Glyph.multiply_emoji ++ lit "3"))
    = lit "2" ++ Glyph.times_sign ++ lit "3"
  /\ normalize (lit "2" ++ Glyph.multiply_emoji ++ lit "3") = lit "2*3"
  /\ canonical_ops (normalize (transform_display (lit "2" ++ Glyph.multiply_emoji ++ lit "3")))
     <> canonical_ops (normalize (lit "2" ++ Glyph.multiply_emoji ++ lit "3")).
Proof. repeat split; try reflexivity. vm_compute. discriminate. Qed.

(** C2, amended: for an expression in which the multiplication token
    (U+2716 followed by U+FE0F) and the division token (U+2797) do not
    occur -- in particular for the plus and minus glyphs, and also where a
    lone U+2716 is left -- normalising the displayed form gives the same
    canonical string as normalising the expression itself. *)
Theorem display_roundtrip_plus_minus (s : pystr) :
  contains Glyph.multiply_emoji s = false -> 0x2797 ∉ s ->
  normalize (transform_display s) = normalize s.
Proof.
  intros Hm Hd.
  rewrite (transform_display_plus_minus s Hm Hd).
  rewrite (normalize_plus_minus s Hm Hd).
  rewrite normalize_plus_minus.
  - now rewrite plus_minus_pi_absorbs.
  - now apply no_token_plus_minus.
  - apply absent_plus_minus; [discriminate..|exact Hd].
Qed.

Lemma display_roundtrip_plus_minus_witness :
  contains Glyph.multiply_emoji sample_lone_heavy_x = false
  /\ (0x2797 ∉ sample_lone_heavy_x)
  /\ (0x2716 ∈ sample_lone_heavy_x)
  /\ normalize (transform_display sample_lone_heavy_x) = normalize sample_lone_heavy_x.
Proof.
  assert (Hd : 0x2797 ∉ sample_lone_heavy_x) by absent_closed.
  split; [reflexivity|]. split; [exact Hd|].
  split; [apply (bool_decide_unpack _); vm_compute; exact I|].
  exact (display_roundtrip_plus_minus sample_lone_heavy_x eq_refl Hd).
Defined.

(** The round trip on an expression of plus, minus, pi and caret only. *)
Example display_roundtrip_sample :
  normalize (transform_display sample_plus_minus) = lit "2+pi-3**2"
  /\ normalize sample_plus_minus = lit "2+pi-3**2".
Proof. split; reflexivity. Qed.

(** ** Exceptions and the [except] tuples *)

Lemma caught_by_spec (classes : list exn_class) (e : exn) :
  caught_by classes e = true <->
  exists c, c ∈ classes /\ issubclass (exn_type e) c = true.
Proof.
  unfold caught_by. rewrite existsb_exists. split.
  - intros (c & Hin & Hc). exists c. split; [now apply list_elem_of_In|exact Hc].
  - intros (c & Hin & Hc). exists c. split; [now apply list_elem_of_In|exact Hc].
Qed.

(** An instance of [NameError] is caught by [safe_eval]. *)
Lemma safe_eval_catches_NameError (e : exn) :
  issubclass (exn_type e) NameError = true -> caught_by safe_eval_except e = true.
Proof.
  intros H. apply caught_by_spec. exists NameError. split; [|exact H].
  unfold safe_eval_except. set_solver.
Qed.

(** ** safe_eval *)

Section SafeEval.
Context `{E : Externals}.

Lemma build_args_from (symbols : list Obj) (local_dict : gmap pystr numeric_impl)
    (acc : gmap pystr pyarg) (name : pystr) :
  foldl (fun args s => <[py_str s := binding_of local_dict (py_str s)]> args)
        acc symbols !! name
  = if decide (name ∈ py_str <$> symbols)
    then Some (binding_of local_dict name)
    else acc !! name.
Proof.
  revert acc. induction symbols as [|s symbols IH]; intros acc; cbn [foldl fmap list_fmap].
  - case_decide as H; [|reflexivity]. now apply elem_of_nil in H.
  - rewrite IH. case_decide as Hin.
    + rewrite decide_True by now right. reflexivity.
    + destruct (decide (name = py_str s)) as [->|Hne].
      * rewrite decide_True by now left.
        now rewrite lookup_insert_eq.
      * rewrite decide_False.
        -- now apply lookup_insert_ne.
        -- intros H. apply elem_of_cons in H as [H|H]; contradiction.
Qed.

Lemma build_args_lookup (symbols : list Obj) (local_dict : gmap pystr numeric_impl)
    (name : pystr) :
  build_args symbols local_dict !! name
  = if decide (name ∈ py_str <$> symbols)
    then Some (binding_of local_dict name)
    else None.
Proof. unfold build_args. now rewrite build_args_from, lookup_empty. Qed.

Lemma build_args_dom (symbols : list Obj) (local_dict : gmap pystr numeric_impl) :
  dom (build_args symbols local_dict) = list_to_set (py_str <$> symbols).
Proof.
  apply set_eq. intros name.
  rewrite elem_of_dom, build_args_lookup, elem_of_list_to_set.
  case_decide as H; split; intros H'; done.
Qed.

(** What [safe_eval] returns is decided by its [try] block and by the
    class of the exception, if any. *)
Lemma safe_eval_returned (expr_str : pystr) (local_dict : gmap pystr numeric_impl)
    (v : pyval Obj) :
  safe_eval_try expr_str local_dict = Return v ->
  safe_eval expr_str local_dict = Return (v, []).
Proof. unfold safe_eval. now intros ->. Qed.

Lemma safe_eval_raised (expr_str : pystr) (local_dict : gmap pystr numeric_impl) (e : exn) :
  safe_eval_try expr_str local_dict = Raise e ->
  safe_eval expr_str local_dict
  = if caught_by safe_eval_except e
    then Return (PyNone, [st_error invalid_expression])
    else Raise e.
Proof. unfold safe_eval. now intros ->. Qed.

(** A value other than [None] comes with no message. *)
Lemma safe_eval_value_silent (expr_str : pystr) (local_dict : gmap pystr numeric_impl)
    (o : Obj) (evs : list ui_event) :
  safe_eval expr_str local_dict = Return (PyObj o, evs) -> evs = [].
Proof.
  unfold safe_eval. destruct (safe_eval_try expr_str local_dict) as [v|e].
  - now intros [= _ <-].
  - now destruct (caught_by safe_eval_except e).
Qed.

End SafeEval.

(** C3: once the expression is parsed and its callable built, [safe_eval]
    invokes the callable with keyword arguments that bind every free
    symbol of the parsed expression, and nothing else: to the registry's
    value for the symbol's name when the registry has the name, and to the
    integer 0 otherwise.  (The equals button passes [allowed_funcs] as
    [local_dict].) *)
Theorem safe_eval_binds_free_symbols `{E : Externals}
    (expr_str : pystr) (local_dict : gmap pystr numeric_impl)
    (sympy_expr : Obj) (symbols : list Obj) (func : Obj) :
  sympify expr_str = Return sympy_expr ->
  free_symbols sympy_expr = Return symbols ->
  lambdify (Params_set symbols) sympy_expr
    (Modules_list [Namespace local_dict; ModuleName (lit "numpy")]) = Return func ->
  exists args : gmap pystr pyarg,
    safe_eval_try expr_str local_dict = call_kwargs func args
    /\ (forall s, s ∈ symbols ->
          args !! py_str s
          = Some (match local_dict !! py_str s with
                  | Some v => ArgRegistry v
                  | None => ArgInt 0
                  end))
    /\ dom args = list_to_set (py_str <$> symbols).
Proof.
  intros Hparse Hsyms Hfunc. exists (build_args symbols local_dict). repeat split.
  - unfold safe_eval_try. rewrite Hparse. cbn. rewrite Hsyms. cbn. now rewrite Hfunc.
  - intros s Hs. rewrite build_args_lookup, decide_True; [reflexivity|].
    now apply list_elem_of_fmap_2.
  - apply build_args_dom.
Qed.

Lemma safe_eval_binds_free_symbols_witness :
  exists args : gmap pystr pyarg,
    safe_eval_try (E := Mock.externals) (lit "e") allowed_funcs
    = Mock.m_call_kwargs (Mock.MLambda [lit "e"] Mock.e_ allowed_funcs) args
    /\ (forall s, s ∈ [Mock.e_] ->
          args !! Mock.m_str s
          = Some (match allowed_funcs !! Mock.m_str s with
                  | Some v => ArgRegistry v
                  | None => ArgInt 0
                  end))
    /\ dom args = list_to_set (Mock.m_str <$> [Mock.e_]).
Proof.
  exact (safe_eval_binds_free_symbols (E := Mock.externals)
           (lit "e") allowed_funcs Mock.e_ [Mock.e_]
           (Mock.MLambda [lit "e"] Mock.e_ allowed_funcs)
           eq_refl eq_refl eq_refl).
Defined.

(** On the test double: [e] is a free symbol, bound to [np.e]; [x] is a
    free symbol the registry does not have, bound to 0. *)
Example build_args_e :
  build_args (E := Mock.externals) [Mock.e_; Mock.x_] allowed_funcs
  = {[ lit "e" := ArgRegistry np_e; lit "x" := ArgInt 0 ]}.
Proof.
  apply map_eq. intros name. rewrite build_args_lookup.
  destruct (decide (name = lit "e")) as [->|He]; [reflexivity|].
  destruct (decide (name = lit "x")) as [->|Hx]; [reflexivity|].
  rewrite decide_False.
  - now rewrite lookup_insert_ne, lookup_singleton_ne.
  - intros H. cbn in H.
    repeat (apply elem_of_cons in H as [H|H]; [contradiction|]).
    now apply elem_of_nil in H.
Qed.

(** ** The handlers and the session state *)

Section Session.
Context `{E : Externals}.

Lemma on_equals_cases (st : session) :
  on_equals st = Run st [] Completed
  \/ (exists e, on_equals st = Run st [] (Uncaught e))
  \/ on_equals st = Run st [st_error invalid_expression] Completed
  \/ (exists result,
       on_equals st
       = Run (Session (history st ++ [transform_display (expression st) ++ lit " = "
                                        ++ py_format result])
                      (py_str result))
             [] Rerun).
Proof.
  unfold on_equals. destruct (expression st) as [|c rest]; [now left|].
  unfold safe_eval.
  destruct (safe_eval_try (normalize (c :: rest)) allowed_funcs) as [[|o]|e].
  - now left.
  - right; right; right. now exists o.
  - destruct (caught_by safe_eval_except e).
    + right; right; now left.
    + right; left. now exists e.
Qed.

Lemma calculate_integral_cases (func_str_int variable_int : pystr)
    (lower_limit upper_limit : float) (st : session) :
  let r := calculate_integral func_str_int variable_int lower_limit upper_limit st in
  final r = st \/ (failed r = false /\ exists entry, final r
                     = Session (history st ++ [entry]) (expression st)).
Proof.
  unfold calculate_integral.
  destruct (integral_try func_str_int variable_int lower_limit upper_limit) as [[v err]|e].
  - right. split; [reflexivity|]. eexists. reflexivity.
  - left. now destruct (caught_by calculus_except e).
Qed.

Lemma calculate_derivative_cases (func_str_diff variable_diff : pystr)
    (eval_point : float) (st : session) :
  let r := calculate_derivative func_str_diff variable_diff eval_point st in
  final r = st \/ (failed r = false /\ exists entry, final r
                     = Session (history st ++ [entry]) (expression st)).
Proof.
  unfold calculate_derivative.
  destruct (derivative_try func_str_diff variable_diff eval_point) as [v|e].
  - right. split; [reflexivity|]. eexists. reflexivity.
  - left. now destruct (caught_by calculus_except e).
Qed.

(** The equals button on a value. *)
Lemma on_equals_value (st : session) (result : Obj) (evs : list ui_event) :
  expression st <> [] ->
  safe_eval (normalize (expression st)) allowed_funcs = Return (PyObj result, evs) ->
  on_equals st
  = Run (Session (history st ++ [transform_display (expression st) ++ lit " = "
                                   ++ py_format result])
                 (py_str result))
        [] Rerun.
Proof.
  intros Hne Hval. pose proof (safe_eval_value_silent _ _ _ _ Hval) as ->.
  unfold on_equals. destruct (expression st) as [|c rest] eqn:Hexpr; [contradiction|].
  now rewrite Hval.
Qed.

(** Every run either leaves the session as it was or succeeds and
    appends exactly one history entry. *)
Lemma handle_cases (rq : request) (st : session) :
  final (handle rq st) = st
  \/ (failed (handle rq st) = false
      /\ exists entry, history (final (handle rq st)) = history st ++ [entry]).
Proof.
  destruct rq as [|expr v lo up|expr v p]; cbn [handle].
  - destruct (on_equals_cases st) as [->|[[e ->]|[->|[r ->]]]]; try now left.
    right. split; [reflexivity|]. eexists. reflexivity.
  - destruct (calculate_integral_cases expr v lo up st) as [H|[Hf [entry Hr]]];
      [now left|right].
    split; [exact Hf|]. exists entry. cbv zeta in Hr. now rewrite Hr.
  - destruct (calculate_derivative_cases expr v p st) as [H|[Hf [entry Hr]]];
      [now left|right].
    split; [exact Hf|]. exists entry. cbv zeta in Hr. now rewrite Hr.
Qed.

End Session.

(** C4: a request that fails -- an error message is shown, or an exception
    leaves the handler -- leaves the session as it was: the history and
    the expression under construction are those from before the request. *)
Theorem failed_request_leaves_state `{E : Externals} (rq : request) (st : session) :
  failed (handle rq st) = true ->
  final (handle rq st) = st
  /\ history (final (handle rq st)) = history st
  /\ expression (final (handle rq st)) = expression st.
Proof.
  intros Hfail.
  destruct (handle_cases rq st) as [H|[Hok _]].
  - now rewrite H.
  - congruence.
Qed.

Lemma failed_request_leaves_state_witness :
  failed (handle (E := Mock.externals) Evaluate Mock.typed_foo) = true
  /\ final (handle (E := Mock.externals) Evaluate Mock.typed_foo) = Mock.typed_foo.
Proof.
  split; [reflexivity|].
  exact (proj1 (failed_request_leaves_state (E := Mock.externals) Evaluate
                  Mock.typed_foo eq_refl)).
Defined.

(** The history is appended to only by a request that succeeds. *)
Corollary history_grows_only_on_success `{E : Externals} (rq : request) (st : session) :
  history (final (handle rq st)) <> history st -> failed (handle rq st) = false.
Proof.
  intros Hne. destruct (handle_cases rq st) as [H|[Hok _]]; [|exact Hok].
  now rewrite H in Hne.
Qed.

(** C10: when the equals button is pressed on a non-empty expression and
    [safe_eval] returns a value, exactly one entry is appended to the
    history -- the displayed form of the expression, [" = "], and the
    value -- the expression under construction becomes [str] of the value,
    nothing is shown, and the page reruns. *)
Theorem equals_success_commits_result `{E : Externals}
    (st : session) (result : Obj) (evs : list ui_event) :
  expression st <> [] ->
  safe_eval (normalize (expression st)) allowed_funcs = Return (PyObj result, evs) ->
  on_equals st
  = Run (Session (history st ++ [transform_display (expression st) ++ lit " = "
                                   ++ py_format result])
                 (py_str result))
        [] Rerun.
Proof.
  intros Hne Hval.
  assert (Hsilent : evs = []) by exact (safe_eval_value_silent _ _ _ _ Hval).
  subst evs. unfold on_equals.
  destruct (expression st) as [|c rest] eqn:Hexpr; [contradiction|].
  rewrite Hval. reflexivity.
Qed.

Lemma equals_success_commits_result_witness :
  expression Mock.typed_sum <> []
  /\ on_equals (E := Mock.externals) Mock.typed_sum
     = Run (Session [lit "2+3*4 = 14"] (lit "14")) [] Rerun.
Proof.
  split; [discriminate|].
  exact (equals_success_commits_result (E := Mock.externals) Mock.typed_sum (Mock.MInt 14) []
           ltac:(discriminate) eq_refl).
Defined.

(** A [NameError], or an exception of a subclass, raised anywhere in the
    [try] block of [safe_eval]: [safe_eval] returns [None] and shows
    "Invalid Expression", and the equals button records nothing and
    leaves the session as it was. *)
Lemma name_error_is_invalid_expression `{E : Externals} (st : session) (e : exn) :
  expression st <> [] ->
  safe_eval_try (normalize (expression st)) allowed_funcs = Raise e ->
  issubclass (exn_type e) NameError = true ->
  safe_eval (normalize (expression st)) allowed_funcs
    = Return (PyNone, [st_error invalid_expression])
  /\ on_equals st = Run st [st_error invalid_expression] Completed.
Proof.
  intros Hne Htry Hname.
  assert (Hsafe : safe_eval (normalize (expression st)) allowed_funcs
                  = Return (PyNone, [st_error invalid_expression])).
  { rewrite (safe_eval_raised _ _ _ Htry).
    now rewrite (safe_eval_catches_NameError e Hname). }
  split; [exact Hsafe|].
  unfold on_equals. destruct (expression st) as [|c rest] eqn:Hexpr; [contradiction|].
  now rewrite Hsafe.
Qed.

(** ** Which failures stop at the operation's boundary *)

Lemma bind_unit_raise {A : Type} (m : result A) (e : exn) :
  (_ ← m; mret tt) = (Raise e : result unit) -> m = Raise e.
Proof. destruct m; [discriminate|]. now intros [= ->]. Qed.

(** C1, as stated, fails: integrating [foo(x)], where [foo] is a
    function that neither the registry nor NumPy defines, builds a
    callable whose body looks [foo] up when quadrature calls it.  The
    [NameError] passes through [quad], and the integral handler's
    [except] tuple (SympifyError, TypeError, ValueError) does not list
    it: the exception leaves the handler and no error message is shown. *)
Lemma integrate_undefined_function_escapes :
  try_of (E := Mock.externals) (Integrate (lit "foo(x)") (lit "x") 0 1) Mock.fresh
    = Raise (Mock.name_error (lit "foo"))
  /\ caught_by calculus_except (Mock.name_error (lit "foo")) = false
  /\ handle (E := Mock.externals) (Integrate (lit "foo(x)") (lit "x") 0 1) Mock.fresh
     = Run Mock.fresh [] (Uncaught (Mock.name_error (lit "foo"))).
Proof. repeat split; reflexivity. Qed.

(** The same unresolved name is caught on the equals button, whose tuple
    lists [NameError]; and an integrand that is a free symbol other than
    the variable comes back from the callable as the Symbol, which makes
    [quad] raise a [TypeError], caught by the integral handler. *)
Example name_error_caught_on_equals :
  handle (E := Mock.externals) Evaluate Mock.typed_foo
  = Run Mock.typed_foo [st_error invalid_expression] Completed.
Proof. reflexivity. Qed.

Example integrate_free_symbol_is_caught :
  (exists e, try_of (E := Mock.externals) (Integrate (lit "y") (lit "x") 0 1) Mock.fresh
             = Raise e /\ exn_type e = TypeError)
  /\ ending_of (handle (E := Mock.externals) (Integrate (lit "y") (lit "x") 0 1) Mock.fresh)
     = Completed
  /\ failed (handle (E := Mock.externals) (Integrate (lit "y") (lit "x") 0 1) Mock.fresh)
     = true.
Proof. repeat split. eexists. split; reflexivity. Qed.

(** What a handler does with an exception raised in its [try] block. *)
Lemma handle_raise `{E : Externals} (rq : request) (st : session) (e : exn) :
  try_of rq st = Raise e ->
  handle rq st
  = if caught_by (except_of rq) e
    then Run st [st_error (error_message rq e)] Completed
    else Run st [] (Uncaught e).
Proof.
  destruct rq as [|expr v lo up|expr v p]; cbn [try_of handle except_of error_message].
  - unfold on_equals. destruct (expression st) as [|c rest]; [discriminate|].
    intros H%bind_unit_raise. rewrite (safe_eval_raised _ _ _ H).
    now destruct (caught_by safe_eval_except e).
  - intros H%bind_unit_raise. unfold calculate_integral. rewrite H.
    now destruct (caught_by calculus_except e).
  - intros H%bind_unit_raise. unfold calculate_derivative. rewrite H.
    now destruct (caught_by calculus_except e).
Qed.

(** C1, amended: a failure inside an operation whose exception is an
    instance of a class in the operation's [except] tuple (evaluate:
    SympifyError, NameError, TypeError, SyntaxError; integrate and
    differentiate: SympifyError, TypeError, ValueError) is caught at the
    operation's boundary and turned into an error message; the handler
    completes and the session is untouched. *)
Theorem failures_caught_by_listed_classes `{E : Externals}
    (rq : request) (st : session) (e : exn) :
  try_of rq st = Raise e ->
  caught_by (except_of rq) e = true ->
  handle rq st = Run st [st_error (error_message rq e)] Completed
  /\ failed (handle rq st) = true
  /\ final (handle rq st) = st.
Proof.
  intros Htry Hcaught.
  assert (Hrun : handle rq st = Run st [st_error (error_message rq e)] Completed).
  { rewrite (handle_raise rq st e Htry). now rewrite Hcaught. }
  rewrite Hrun. repeat split.
Qed.

Lemma failures_caught_by_listed_classes_witness :
  try_of (E := Mock.externals) Evaluate Mock.typed_incomplete
    = Raise (Mock.sympify_error (lit "2+"))
  /\ caught_by safe_eval_except (Mock.sympify_error (lit "2+")) = true
  /\ handle (E := Mock.externals) Evaluate Mock.typed_incomplete
     = Run Mock.typed_incomplete [st_error invalid_expression] Completed.
Proof.
  split; [reflexivity|]. split; [reflexivity|].
  exact (proj1 (failures_caught_by_listed_classes (E := Mock.externals)
                  Evaluate Mock.typed_incomplete
                  (Mock.sympify_error (lit "2+")) eq_refl eq_refl)).
Defined.

(** An exception of a class outside the tuple leaves the handler. *)
Lemma unlisted_classes_escape `{E : Externals} (rq : request) (st : session) (e : exn) :
  try_of rq st = Raise e ->
  caught_by (except_of rq) e = false ->
  handle rq st = Run st [] (Uncaught e).
Proof. intros Htry Hc. rewrite (handle_raise rq st e Htry). now rewrite Hc. Qed.

(** The classes each tuple lets through, among those of the model. *)
Example safe_eval_lets_through :
  filter (fun c => caught_by safe_eval_except (Exn c []) = false)
    [ ValueError; ZeroDivisionError; OverflowError; AttributeError; KeyError;
      RecursionError; SympifyError; NameError; UnboundLocalError; TypeError;
      SyntaxError; IndentationError ]
  = [ ValueError; ZeroDivisionError; OverflowError; AttributeError; KeyError;
      RecursionError ].
Proof. reflexivity. Qed.

Example calculus_lets_through :
  filter (fun c => caught_by calculus_except (Exn c []) = false)
    [ ValueError; ZeroDivisionError; OverflowError; AttributeError; KeyError;
      RecursionError; SympifyError; NameError; UnboundLocalError; TypeError;
      SyntaxError; IndentationError ]
  = [ ZeroDivisionError; OverflowError; AttributeError; KeyError; RecursionError;
      NameError; UnboundLocalError; SyntaxError; IndentationError ].
Proof. reflexivity. Qed.

(** ** Integration *)

(** What the integral handler does once the variable and the integrand
    are parsed and the callable is built: it calls [quad] on the limits as
    given, in the order given, and its outcome is that of [quad]. *)
Lemma integral_is_quad_over_given_limits `{E : Externals}
    (func_str_int variable_int : pystr) (lower_limit upper_limit : float) (st : session)
    (x sympy_func f : Obj) :
  sympify variable_int = Return x ->
  sympify func_str_int = Return sympy_func ->
  lambdify (Params_one x) sympy_func (Modules_str (lit "numpy")) = Return f ->
  calculate_integral func_str_int variable_int lower_limit upper_limit st
  = match quad f lower_limit upper_limit with
    | Return (value, error) =>
        Run (Session (history st ++ [integral_entry func_str_int lower_limit upper_limit value])
                     (expression st))
            [ st_success (Glyph.check_mark ++ lit " Result: " ++ py_format value);
              st_info (Glyph.bar_chart ++ lit " Estimated Error: " ++ py_format error) ]
            Completed
    | Raise e =>
        if caught_by calculus_except e
        then Run st [st_error (Glyph.cross_mark ++ lit " Error in integration: "
                                 ++ exn_message e)] Completed
        else Run st [] (Uncaught e)
    end.
Proof.
  intros Hx Hf Hl. unfold calculate_integral, integral_try.
  rewrite Hx. cbn. rewrite Hf. cbn. rewrite Hl. cbn.
  now destruct (quad f lower_limit upper_limit) as [[value error]|e].
Qed.

(** ** Differentiation *)

(** What the derivative handler does when every library call returns:
    it shows the value of [evalf] and the expression of [diff], and
    records the value. *)
Lemma derivative_is_symbolic_then_evaluated `{E : Externals}
    (func_str_diff variable_diff : pystr) (eval_point : float) (st : session)
    (x f d substituted r : Obj) :
  sympify variable_diff = Return x ->
  sympify func_str_diff = Return f ->
  diff f x = Return d ->
  subs d x eval_point = Return substituted ->
  evalf substituted = Return r ->
  calculate_derivative func_str_diff variable_diff eval_point st
  = Run (Session (history st
                    ++ [lit "d/d" ++ py_format x ++ lit "(" ++ func_str_diff ++ lit ") at "
                          ++ float_format eval_point ++ lit " = " ++ py_format r])
                 (expression st))
        [ st_success (Glyph.check_mark ++ lit " Derivative at x=" ++ float_format eval_point
                        ++ lit ": " ++ py_format r);
          st_latex (lit "\frac{d}{d" ++ py_format x ++ lit "} \left( " ++ py_format f
                      ++ lit " \right) = " ++ py_format d) ]
        Completed.
Proof.
  intros Hx Hf Hd Hs Hr. unfold calculate_derivative, derivative_try.
  rewrite Hx. cbn. rewrite Hf. cbn. rewrite Hd. cbn. rewrite Hs. cbn. now rewrite Hr.
Qed.

(** ** The registry *)

Lemma allowed_funcs_lookup (name : pystr) :
  allowed_funcs !! name = registry_per_spec name.
Proof.
  unfold registry_per_spec.
  repeat (case_decide; [subst name; reflexivity|]).
  apply not_elem_of_list_to_map_1. cbn [fmap list_fmap fst].
  intros Hin. repeat (apply elem_of_cons in Hin as [Hin|Hin]; [contradiction|]).
  now apply elem_of_nil in Hin.
Qed.

(** A string without pi, the emoji operators and the caret is already in
    canonical form. *)
Lemma normalize_canonical (s : pystr) :
  0x3C0 ∉ s -> 0x2795 ∉ s -> 0x2796 ∉ s -> 0x2797 ∉ s -> 0x2716 ∉ s -> 94 ∉ s ->
  normalize s = s.
Proof.
  intros Hpi Hp Hm Hd Hx Hc. unfold normalize.
  unfold Glyph.greek_pi, Glyph.plus_emoji, Glyph.minus_emoji,
    Glyph.divide_emoji, Glyph.multiply_emoji.
  change (lit "^") with [94].
  rewrite (replace_absent 0x3C0) by assumption.
  rewrite (replace_absent 0x2795) by assumption.
  rewrite (replace_absent 0x2796) by assumption.
  rewrite (replace_absent 0x2797) by assumption.
  rewrite (replace_absent 0x2716) by assumption.
  now rewrite (replace_absent 94).
Qed.

(** The registry has exactly the seventeen names. *)
Lemma allowed_funcs_names : dom allowed_funcs = list_to_set registry_names.
Proof. reflexivity. Qed.

(** The equals button's rewriting, pass by pass. *)
Lemma normalize_passes (s : pystr) :
  normalize s
  = flat_map (subst1 94 (lit "**"))
      (replace [0x2716; 0xFE0F] (lit "*")
         (flat_map (subst1 0x2797 (lit "/"))
            (flat_map (subst1 0x2796 (lit "-"))
               (flat_map (subst1 0x2795 (lit "+"))
                  (flat_map (subst1 0x3C0 (lit "pi")) s))))).
Proof.
  unfold normalize, Glyph.greek_pi, Glyph.plus_emoji, Glyph.minus_emoji,
    Glyph.divide_emoji, Glyph.multiply_emoji.
  change (lit "^") with [94]. now rewrite !replace_single.
Qed.

Lemma transform_display_passes (s : pystr) :
  transform_display s
  = flat_map (subst1 0x2797 Glyph.division_sign)
      (replace [0x2716; 0xFE0F] Glyph.times_sign
         (flat_map (subst1 0x2796 (lit "-"))
            (flat_map (subst1 0x2795 (lit "+")) s))).
Proof.
  unfold transform_display, Glyph.plus_emoji, Glyph.minus_emoji,
    Glyph.divide_emoji, Glyph.multiply_emoji.
  now rewrite !replace_single.
Qed.

(** A string with none of the tokens is left as it is. *)
Lemma normalize_fixed (t : pystr) :
  0x3C0 ∉ t -> 0x2795 ∉ t -> 0x2796 ∉ t -> 0x2797 ∉ t -> 94 ∉ t ->
  contains Glyph.multiply_emoji t = false ->
  normalize t = t.
Proof.
  intros Hpi Hp Hm Hd Hc Hx. unfold normalize.
  unfold Glyph.greek_pi, Glyph.plus_emoji, Glyph.minus_emoji, Glyph.divide_emoji.
  change (lit "^") with [94].
  rewrite (replace_absent 0x3C0) by assumption.
  rewrite (replace_absent 0x2795) by assumption.
  rewrite (replace_absent 0x2796) by assumption.
  rewrite (replace_absent 0x2797) by assumption.
  rewrite (replace_no_occurrence Glyph.multiply_emoji) by assumption.
  now rewrite (replace_absent 94).
Qed.

Lemma transform_display_fixed (t : pystr) :
  0x2795 ∉ t -> 0x2796 ∉ t -> 0x2797 ∉ t ->
  contains Glyph.multiply_emoji t = false ->
  transform_display t = t.
Proof.
  intros Hp Hm Hd Hx. unfold transform_display.
  unfold Glyph.plus_emoji, Glyph.minus_emoji, Glyph.divide_emoji.
  rewrite (replace_absent 0x2795) by assumption.
  rewrite (replace_absent 0x2796) by assumption.
  rewrite (replace_no_occurrence Glyph.multiply_emoji) by assumption.
  now rewrite (replace_absent 0x2797).
Qed.

Lemma normalize_no_tokens (s : pystr) :
  (0x3C0 ∉ normalize s) /\ (0x2795 ∉ normalize s) /\ (0x2796 ∉ normalize s)
  /\ (0x2797 ∉ normalize s) /\ (94 ∉ normalize s)
  /\ contains Glyph.multiply_emoji (normalize s) = false.
Proof.
  rewrite normalize_passes. repeat split; try (repeat absent_step).
  change (lit "**") with [42; 42]. apply no_pair_flat_map; [absent_closed..|].
  change (lit "*") with [42]. apply no_pair_after_replace; absent_closed.
Qed.

Lemma transform_display_no_tokens (s : pystr) :
  (0x2795 ∉ transform_display s) /\ (0x2796 ∉ transform_display s)
  /\ (0x2797 ∉ transform_display s)
  /\ contains Glyph.multiply_emoji (transform_display s) = false.
Proof.
  rewrite transform_display_passes. repeat split; try (repeat absent_step).
  unfold Glyph.division_sign. apply no_pair_flat_map; [absent_closed..|].
  unfold Glyph.times_sign. apply no_pair_after_replace; absent_closed.
Qed.

(** X1: whatever the expression under construction holds, the string the
    equals button hands to [safe_eval] contains no pi glyph, no emoji
    plus, minus or division sign, no caret, and no occurrence of the
    two-code-point multiplication token. *)
Theorem normalize_output_has_no_tokens (s : pystr) :
  Forall (fun c => c ∉ normalize s) [0x3C0; 0x2795; 0x2796; 0x2797; 94]
  /\ contains Glyph.multiply_emoji (normalize s) = false.
Proof.
  destruct (normalize_no_tokens s) as (H1 & H2 & H3 & H4 & H5 & H6).
  split; [|exact H6]. repeat constructor; assumption.
Qed.

(** X2: the equals button's rewriting is idempotent on every string:
    rewriting its own output changes nothing. *)
Theorem normalize_idempotent (s : pystr) :
  normalize (normalize s) = normalize s.
Proof.
  destruct (normalize_no_tokens s) as (H1 & H2 & H3 & H4 & H5 & H6).
  now apply normalize_fixed.
Qed.

(** X3: the display transform leaves no emoji operator in its output and
    is idempotent on every string. *)
Theorem transform_display_idempotent (s : pystr) :
  Forall (fun c => c ∉ transform_display s) [0x2795; 0x2796; 0x2797]
  /\ contains Glyph.multiply_emoji (transform_display s) = false
  /\ transform_display (transform_display s) = transform_display s.
Proof.
  destruct (transform_display_no_tokens s) as (H1 & H2 & H3 & H4).
  split; [repeat constructor; assumption|]. split; [exact H4|].
  now apply transform_display_fixed.
Qed.

(** Replacement by non-empty text never empties a string. *)
Lemma replace_nonempty (old new s : pystr) :
  s <> [] -> new <> [] -> replace old new s <> [].
Proof.
  intros Hs Hn. destruct s as [|c s]; [contradiction|].
  unfold replace. cbn [replace_from]. destruct (is_prefix old (c :: s)).
  - destruct new; [contradiction|discriminate].
  - discriminate.
Qed.

Lemma transform_display_nonempty (s : pystr) : s <> [] -> transform_display s <> [].
Proof.
  intros Hs. unfold transform_display.
  repeat (apply replace_nonempty; [|discriminate]). exact Hs.
Qed.

(** X4: the display area never shows an empty string: an empty
    expression is shown as "0", and a non-empty one as its non-empty
    transformed form. *)
Theorem display_text_never_empty (st : session) :
  display_text st <> []
  /\ display_text (Session (history st) []) = lit "0".
Proof.
  unfold display_text. split; [|reflexivity].
  apply transform_display_nonempty. destruct (expression st); discriminate.
Qed.

(** ** The button grid *)

Section Buttons.
Context `{E : Externals}.

Lemma session_eta (st : session) : Session (history st) (expression st) = st.
Proof. now destruct st. Qed.

Lemma act_all_app (l1 l2 : list action) (st : session) :
  act_all (l1 ++ l2) st = act_all l2 (act_all l1 st).
Proof. unfold act_all. apply foldl_app. Qed.

(** A label other than [=], [C] and the backspace is appended. *)
Lemma press_appends (label : pystr) (st : session) :
  label ∉ control_labels ->
  press label st = Run (Session (history st) (expression st ++ label)) [] Rerun.
Proof.
  intros H. unfold control_labels in H. unfold press.
  repeat (case_decide as Heq; [exfalso; apply H; rewrite Heq; set_solver|]; clear Heq).
  reflexivity.
Qed.

Lemma press_backspace (st : session) :
  press Glyph.backspace st
  = Run (Session (history st) (removelast (expression st))) [] Rerun.
Proof. reflexivity. Qed.

Lemma removelast_take (s : pystr) : removelast s = take (length s - 1) s.
Proof.
  destruct s as [|c s] using rev_ind; [reflexivity|].
  rewrite removelast_last, length_app. cbn [length].
  replace (length s + 1 - 1)%nat with (length s) by lia.
  now rewrite take_app_length.
Qed.

Lemma backspaces_spec (n : nat) (st : session) :
  backspaces n st
  = Session (history st) (take (length (expression st) - n) (expression st)).
Proof.
  unfold backspaces. revert st. induction n as [|n IH]; intros st.
  - cbn. rewrite Nat.sub_0_r, firstn_all. symmetry. apply session_eta.
  - cbn [replicate]. change (act_all (?a :: ?l) st) with (act_all l (final (act a st))).
    rewrite IH. cbn [act final]. rewrite press_backspace. cbn [final history expression].
    f_equal. rewrite removelast_take, take_take, length_take.
    f_equal. lia.
Qed.

End Buttons.

(** Appending text that does not start with the pair's second code point
    adds no occurrence across the seam. *)
Lemma replace_pair_app_upto (a b : N) (new : pystr) (n : nat) (s t : pystr) :
  head t <> Some b -> (length s <= n)%nat ->
  replace [a; b] new (s ++ t) = replace [a; b] new s ++ replace [a; b] new t.
Proof.
  intros Ht. revert s. induction n as [|n IH]; intros s Hlen.
  - destruct s; [reflexivity|cbn in Hlen; lia].
  - destruct s as [|c [|d s]].
    + reflexivity.
    + rewrite replace_pair_one. cbn [app]. destruct t as [|d t].
      * now rewrite replace_pair_one.
      * rewrite replace_pair_cons.
        destruct (N.eqb_spec b d) as [->|_]; [now contradiction Ht|].
        now rewrite andb_false_r.
    + cbn [app]. rewrite !replace_pair_cons.
      destruct ((a =? c) && (b =? d)).
      * rewrite IH by (cbn [length] in *; lia). now rewrite app_assoc.
      * change (d :: s ++ t) with ((d :: s) ++ t).
        now rewrite IH by (cbn [length] in *; lia).
Qed.

Lemma replace_pair_app (a b : N) (new s t : pystr) :
  head t <> Some b ->
  replace [a; b] new (s ++ t) = replace [a; b] new s ++ replace [a; b] new t.
Proof. intros Ht. now apply (replace_pair_app_upto a b new (length s)). Qed.

(** Rewriting single code points into text without [b] does not bring
    [b] to the front. *)
Lemma head_flat_map_subst1 (b c x : N) (n t : pystr) :
  b ∉ x :: n -> head t <> Some b -> head (flat_map (subst1 c (x :: n)) t) <> Some b.
Proof.
  intros Hb Ht. destruct t as [|y t]; [easy|].
  cbn [flat_map]. unfold subst1 at 1. destruct (y =? c).
  - cbn. intros [= ->]. apply Hb. left.
  - exact Ht.
Qed.

(** The equals button's rewriting of appended text: unless the text
    begins with the variation selector U+FE0F, it is rewritten on its own. *)
Lemma normalize_app (s t : pystr) :
  head t <> Some 0xFE0F -> normalize (s ++ t) = normalize s ++ normalize t.
Proof.
  intros Ht. rewrite !normalize_passes, !flat_map_app.
  rewrite replace_pair_app; [now rewrite flat_map_app|].
  change (lit "/") with [47]. apply head_flat_map_subst1; [absent_closed|].
  change (lit "-") with [45]. apply head_flat_map_subst1; [absent_closed|].
  change (lit "+") with [43]. apply head_flat_map_subst1; [absent_closed|].
  change (lit "pi") with [112; 105]. now apply head_flat_map_subst1; [absent_closed|].
Qed.

Lemma transform_display_app (s t : pystr) :
  head t <> Some 0xFE0F ->
  transform_display (s ++ t) = transform_display s ++ transform_display t.
Proof.
  intros Ht. rewrite !transform_display_passes, !flat_map_app.
  rewrite replace_pair_app; [now rewrite flat_map_app|].
  change (lit "-") with [45]. apply head_flat_map_subst1; [absent_closed|].
  change (lit "+") with [43]. now apply head_flat_map_subst1; [absent_closed|].
Qed.

(** X5: [n] presses of the backspace button drop the last [n] code points
    of the expression -- all of it when it is shorter -- and leave the
    history alone; on an empty expression they do nothing. *)
Theorem backspaces_drop_last `{E : Externals} (n : nat) (st : session) :
  backspaces n st
  = Session (history st) (take (length (expression st) - n) (expression st))
  /\ backspaces n (Session (history st) []) = Session (history st) [].
Proof.
  split; [apply backspaces_spec|].
  rewrite backspaces_spec. cbn [history expression]. now rewrite take_nil.
Qed.

(** X6: pressing a button that extends the expression and then the
    backspace button once for every code point of its label gives back
    the session from before. *)
Theorem press_then_backspaces_restores `{E : Externals} (label : pystr) (st : session) :
  label ∉ control_labels ->
  backspaces (length label) (final (press label st)) = st.
Proof.
  intros H. rewrite (press_appends label st H), backspaces_spec.
  cbn [final history expression]. rewrite length_app.
  replace (length (expression st) + length label - length label)%nat
    with (length (expression st)) by lia.
  rewrite take_app_length. apply session_eta.
Qed.

Lemma press_then_backspaces_restores_witness :
  (Glyph.multiply_emoji ∉ control_labels)
  /\ backspaces (E := Mock.externals) 2
       (final (press (E := Mock.externals) Glyph.multiply_emoji Mock.typed_sum))
     = Mock.typed_sum.
Proof.
  assert (H : Glyph.multiply_emoji ∉ control_labels) by absent_closed.
  split; [exact H|].
  exact (press_then_backspaces_restores (E := Mock.externals)
           Glyph.multiply_emoji Mock.typed_sum H).
Defined.

(** X7: the multiplication button appends two code points, so one press
    of the backspace button after it does not undo it: U+2716 stays at
    the end of the expression, and the equals button's rewriting passes
    it on unchanged instead of producing [*]. *)
Theorem multiply_then_backspace_leaves_heavy_x `{E : Externals} (st : session) :
  backspaces 1 (final (press Glyph.multiply_emoji st))
  = Session (history st) (expression st ++ [0x2716])
  /\ normalize (expression st ++ [0x2716]) = normalize (expression st) ++ [0x2716]
  /\ normalize (expression st ++ Glyph.multiply_emoji) = normalize (expression st) ++ lit "*".
Proof.
  split; [|split].
  - rewrite press_appends by absent_closed. rewrite backspaces_spec.
    cbn [final history expression]. f_equal.
    rewrite length_app. cbn [length Glyph.multiply_emoji].
    replace (length (expression st) + 2 - 1)%nat with (length (expression st) + 1)%nat by lia.
    change Glyph.multiply_emoji with ([0x2716] ++ [0xFE0F]).
    rewrite app_assoc. rewrite <- (length_app _ [0x2716]) at 1. apply take_app_length.
  - now apply normalize_app.
  - now apply normalize_app.
Qed.

Lemma act_all_presses `{E : Externals} (labels : list pystr) (st : session) :
  Forall (fun label => label ∉ control_labels) labels ->
  act_all (Press <$> labels) st = Session (history st) (expression st ++ concat labels).
Proof.
  intros H. revert st. induction H as [|label labels Hl _ IH]; intros st.
  - cbn. rewrite app_nil_r. symmetry. apply session_eta.
  - cbn [fmap list_fmap concat].
    change (act_all (?a :: ?l) st) with (act_all l (final (act a st))).
    rewrite IH. cbn [act]. rewrite (press_appends label st Hl).
    cbn [final history expression]. now rewrite app_assoc.
Qed.

(** X8: typing -- pressing, one after the other, buttons other than [=],
    [C] and the backspace -- appends the labels to the expression in the
    order pressed and leaves the history alone. *)
Theorem typing_appends_labels `{E : Externals} (labels : list pystr) (st : session) :
  Forall (fun label => label ∉ control_labels) labels ->
  act_all (Press <$> labels) st = Session (history st) (expression st ++ concat labels).
Proof. apply act_all_presses. Qed.

Lemma typing_appends_labels_witness :
  Forall (fun label => label ∉ control_labels) [lit "2"; Glyph.multiply_emoji; lit "3"]
  /\ act_all (E := Mock.externals) (Press <$> [lit "2"; Glyph.multiply_emoji; lit "3"]) Mock.fresh
     = Session [] (lit "2" ++ Glyph.multiply_emoji ++ lit "3").
Proof.
  assert (H : Forall (fun label => label ∉ control_labels)
                [lit "2"; Glyph.multiply_emoji; lit "3"])
    by (repeat constructor; absent_closed).
  split; [exact H|].
  exact (typing_appends_labels (E := Mock.externals)
           [lit "2"; Glyph.multiply_emoji; lit "3"] Mock.fresh H).
Defined.

Lemma rewriting_concat (pieces : list pystr) :
  Forall (fun piece => head piece <> Some 0xFE0F) pieces ->
  normalize (concat pieces) = concat (normalize <$> pieces)
  /\ transform_display (concat pieces) = concat (transform_display <$> pieces).
Proof.
  induction pieces as [|piece pieces IH] using rev_ind; intros H; [now split|].
  apply Forall_app in H as [Hs Hp]. apply List.Forall_inv in Hp.
  destruct (IH Hs) as [IHn IHd].
  rewrite !fmap_app, !concat_app. cbn [fmap list_fmap concat]. rewrite !app_nil_r.
  rewrite (normalize_app _ _ Hp), (transform_display_app _ _ Hp).
  now rewrite IHn, IHd.
Qed.

(** X9: text put together from pieces none of which begins with the
    variation selector U+FE0F -- every button label is such a piece -- is
    rewritten piece by piece, by the equals button and by the display
    transform alike. *)
Theorem rewriting_is_piecewise (pieces : list pystr) :
  Forall (fun piece => head piece <> Some 0xFE0F) pieces ->
  normalize (concat pieces) = concat (normalize <$> pieces)
  /\ transform_display (concat pieces) = concat (transform_display <$> pieces).
Proof. apply rewriting_concat. Qed.

Lemma rewriting_is_piecewise_witness :
  Forall (fun piece => head piece <> Some 0xFE0F)
    [lit "2"; Glyph.multiply_emoji; Glyph.greek_pi; lit "^"; lit "2"]
  /\ normalize (lit "2" ++ Glyph.multiply_emoji ++ Glyph.greek_pi ++ lit "^" ++ lit "2")
     = lit "2" ++ lit "*" ++ lit "pi" ++ lit "**" ++ lit "2".
Proof.
  assert (H : Forall (fun piece => head piece <> Some 0xFE0F)
                [lit "2"; Glyph.multiply_emoji; Glyph.greek_pi; lit "^"; lit "2"])
    by (repeat constructor; discriminate).
  split; [exact H|].
  exact (proj1 (rewriting_is_piecewise
                  [lit "2"; Glyph.multiply_emoji; Glyph.greek_pi; lit "^"; lit "2"] H)).
Defined.

(** Across the seam the pieces are not independent: U+2716 and U+FE0F
    typed apart are rewritten together. *)
Example rewriting_across_seam :
  normalize ([0x2716] ++ [0xFE0F]) = lit "*"
  /\ normalize [0x2716] ++ normalize [0xFE0F] = [0x2716; 0xFE0F].
Proof. split; reflexivity. Qed.

(** ** The history *)

Section History.
Context `{E : Externals}.

Lemma press_history (label : pystr) (st : session) :
  history (final (press label st)) = history st
  \/ exists entry, history (final (press label st)) = history st ++ [entry].
Proof.
  unfold press. repeat case_decide; try (now left).
  destruct (on_equals_cases st) as [->|[[e ->]|[->|[r ->]]]]; try (now left).
  right. eexists. reflexivity.
Qed.

(** One run of the script either leaves the history or appends one entry
    to it, unless the history is cleared. *)
Lemma act_history (a : action) (st : session) :
  is_clear_history a = false ->
  history (final (act a st)) = history st
  \/ exists entry, history (final (act a st)) = history st ++ [entry].
Proof.
  destruct a as [label|label|rq|]; cbn [act is_clear_history]; intros Hc.
  - apply press_history.
  - now left.
  - destruct (handle_cases rq st) as [->|[_ Happ]]; [now left|now right].
  - discriminate.
Qed.

Lemma act_all_history (actions : list action) (st : session) :
  forallb (fun a => negb (is_clear_history a)) actions = true ->
  history st `prefix_of` history (act_all actions st)
  /\ (length (history (act_all actions st)) <= length (history st) + length actions)%nat.
Proof.
  revert st. induction actions as [|a actions IH]; intros st H.
  - cbn. split; [reflexivity|lia].
  - cbn [forallb] in H. apply andb_true_iff in H as [Ha H].
    apply negb_true_iff in Ha.
    change (act_all (a :: actions) st) with (act_all actions (final (act a st))).
    destruct (IH (final (act a st)) H) as [IHp IHl].
    destruct (act_history a st Ha) as [Heq|[entry Heq]]; rewrite Heq in IHp, IHl.
    + split; [exact IHp|cbn [length]; lia].
    + split; [now apply prefix_app_l in IHp|].
      rewrite length_app in IHl. cbn [length] in *. lia.
Qed.

End History.

(** X10: the history is append-only.  Over any sequence of runs in which
    the clear button is not used -- button presses, function buttons,
    evaluations, integrals, derivatives, failed or not -- the history
    from before is a prefix of the history after, and each run adds at
    most one entry. *)
Theorem history_is_append_only `{E : Externals} (actions : list action) (st : session) :
  forallb (fun a => negb (is_clear_history a)) actions = true ->
  history st `prefix_of` history (act_all actions st)
  /\ (length (history (act_all actions st)) <= length (history st) + length actions)%nat.
Proof. apply act_all_history. Qed.

Lemma history_is_append_only_witness :
  [lit "1+1 = 2"] `prefix_of` history (act_all (E := Mock.externals) sample_actions
                                         Mock.typed_foo)
  /\ history (act_all (E := Mock.externals) sample_actions Mock.typed_foo)
     = [ lit "1+1 = 2"; lit "2+3" ++ Glyph.times_sign ++ lit "4 = 14" ].
Proof.
  split; [|reflexivity].
  exact (proj1 (history_is_append_only (E := Mock.externals) sample_actions
                  Mock.typed_foo eq_refl)).
Defined.

(** The clear button, which exists only while there is a history,
    empties it and leaves the expression. *)
Lemma clear_history_spec (st : session) :
  final (clear_history st) = Session [] (expression st).
Proof. unfold clear_history. destruct st as [[|entry hist] expr]; reflexivity. Qed.

(** X11: the calculus section never touches the expression under
    construction and never asks for a rerun, whether the calculation
    succeeds, shows an error, or lets an exception escape. *)
Theorem calculus_leaves_expression `{E : Externals}
    (func_str variable : pystr) (lower_limit upper_limit eval_point : float) (st : session) :
  expression (final (calculate_integral func_str variable lower_limit upper_limit st))
    = expression st
  /\ ending_of (calculate_integral func_str variable lower_limit upper_limit st) <> Rerun
  /\ expression (final (calculate_derivative func_str variable eval_point st)) = expression st
  /\ ending_of (calculate_derivative func_str variable eval_point st) <> Rerun.
Proof.
  unfold calculate_integral, calculate_derivative.
  destruct (integral_try func_str variable lower_limit upper_limit) as [[v err]|e1];
    destruct (derivative_try func_str variable eval_point) as [d|e2];
    try destruct (caught_by calculus_except e1);
    try destruct (caught_by calculus_except e2);
    repeat split; discriminate.
Qed.

(** ** The function grid *)

Lemma is_prefix_refl (s : pystr) : is_prefix s s = true.
Proof. induction s as [|c s IH]; [reflexivity|]. cbn. now rewrite N.eqb_refl. Qed.

Lemma contains_app_r (sub s : pystr) : contains sub (s ++ sub) = true.
Proof.
  induction s as [|c s IH].
  - cbn [app]. destruct sub as [|c sub]; [reflexivity|].
    cbn [contains]. now rewrite is_prefix_refl.
  - cbn [app contains]. rewrite IH. apply orb_true_r.
Qed.

(** X12: a function button, labelled with a name followed by [()],
    appends the name and the opening parenthesis only, whatever the
    name. *)
Theorem press_func_opens_call `{E : Externals} (name : pystr) (st : session) :
  press_func (name ++ lit "()") st
  = Run (Session (history st) (expression st ++ name ++ lit "(")) [] Rerun.
Proof.
  unfold press_func, Glyph.greek_pi.
  change (lit "()") with [40; 41]. change (lit "n!") with [110; 33].
  assert (Hlen : forall t : pystr, (length t < 2)%nat -> name ++ [40; 41] <> t).
  { intros t Ht H. apply (f_equal length) in H. rewrite length_app in H. cbn in H. lia. }
  rewrite decide_False by (apply Hlen; cbn; lia).
  rewrite decide_False.
  2:{ intros H. destruct name as [|c name]; [discriminate|].
      injection H as _ H. destruct name as [|d name]; [discriminate|].
      injection H as _ H. now destruct name. }
  rewrite contains_app_r.
  change [40; 41] with ([40] ++ [41]). rewrite (app_assoc name), removelast_last.
  reflexivity.
Qed.

(** The two buttons of the function grid that are not appended as
    labelled. *)
Example press_func_special `{E : Externals} (st : session) :
  expression (final (press_func (lit "n!") st)) = expression st ++ lit "factorial("
  /\ expression (final (press_func (lit "^") st)) = expression st ++ lit "^"
  /\ expression (final (press_func Glyph.greek_pi st)) = expression st ++ Glyph.greek_pi.
Proof. repeat split. Qed.

(** ** The sidebar *)

Lemma lit_inj (s t : string) : lit s = lit t -> s = t.
Proof.
  unfold lit. intros H.
  rewrite <- (string_of_list_ascii_of_string s), <- (string_of_list_ascii_of_string t).
  f_equal. revert H. generalize (list_ascii_of_string s), (list_ascii_of_string t).
  intros l1. induction l1 as [|a l1 IH]; intros [|b l2]; try discriminate; [reflexivity|].
  cbn [map]. intros [= Hab Hl]. f_equal; [|now apply IH].
  rewrite <- (ascii_N_embedding a), <- (ascii_N_embedding b). now f_equal.
Qed.

Lemma to_uint_nonnil (n : nat) : Nat.to_uint n <> Decimal.Nil.
Proof.
  rewrite <- (DecimalNat.Unsigned.of_to n) at 1.
  rewrite DecimalNat.Unsigned.to_of. apply DecimalFacts.unorm_nonnil.
Qed.

(** Distinct numbers are printed differently. *)
Lemma decimal_inj (n m : nat) : decimal n = decimal m -> n = m.
Proof.
  unfold decimal. intros H%lit_inj.
  apply DecimalNat.Unsigned.to_uint_inj.
  assert (Hs : Some (Nat.to_uint n) = Some (Nat.to_uint m)).
  { rewrite <- (NilZero.usu _ (to_uint_nonnil n)), <- (NilZero.usu _ (to_uint_nonnil m)).
    now rewrite H. }
  now injection Hs.
Qed.

Lemma history_areas_lookup (hist : list pystr) (j : nat) :
  history_areas hist !! j
  = (fun entry => HistoryArea (lit "#" ++ decimal (length hist - j)) entry
                              (lit "hist_" ++ decimal j)) <$> reverse hist !! j.
Proof. unfold history_areas. apply list_lookup_imap. Qed.

(** X13: the sidebar shows one text area per calculation, newest first,
    and the area numbered [#k] holds the [k]-th calculation made. *)
Theorem sidebar_numbers_entries (hist : list pystr) (i : nat) (entry : pystr) :
  hist !! i = Some entry ->
  length (history_areas hist) = length hist
  /\ history_areas hist !! (length hist - S i)%nat
     = Some (HistoryArea (lit "#" ++ decimal (S i)) entry
                         (lit "hist_" ++ decimal (length hist - S i))).
Proof.
  intros Hi. pose proof (lookup_lt_Some _ _ _ Hi) as Hlt.
  split.
  - unfold history_areas. now rewrite length_imap, length_reverse.
  - rewrite history_areas_lookup, reverse_lookup by lia.
    replace (length hist - S (length hist - S i))%nat with i by lia.
    rewrite Hi. cbn [fmap option_fmap option_map].
    now replace (length hist - (length hist - S i))%nat with (S i) by lia.
Qed.

Lemma sidebar_numbers_entries_witness :
  [lit "1+1 = 2"; lit "2+3*4 = 14"] !! 1%nat = Some (lit "2+3*4 = 14")
  /\ history_areas [lit "1+1 = 2"; lit "2+3*4 = 14"]
     = [ HistoryArea (lit "#2") (lit "2+3*4 = 14") (lit "hist_0");
         HistoryArea (lit "#1") (lit "1+1 = 2") (lit "hist_1") ]
  /\ history_areas [lit "1+1 = 2"; lit "2+3*4 = 14"] !! 0%nat
     = Some (HistoryArea (lit "#2") (lit "2+3*4 = 14") (lit "hist_0")).
Proof.
  split; [reflexivity|]. split; [reflexivity|].
  exact (proj2 (sidebar_numbers_entries [lit "1+1 = 2"; lit "2+3*4 = 14"] 1
                  (lit "2+3*4 = 14") eq_refl)).
Defined.

(** X14: whatever the history, the text areas of the sidebar have
    pairwise distinct widget keys and pairwise distinct labels. *)
Theorem sidebar_keys_distinct (hist : list pystr) :
  NoDup (area_key <$> history_areas hist)
  /\ NoDup (area_label <$> history_areas hist).
Proof.
  split; apply NoDup_alt; intros j1 j2 k H1 H2;
    rewrite list_lookup_fmap, history_areas_lookup in H1, H2;
    destruct (reverse hist !! j1) as [e1|] eqn:E1; [|discriminate| |discriminate];
    destruct (reverse hist !! j2) as [e2|] eqn:E2; try discriminate;
    cbn in H1, H2; rewrite <- H2 in H1; injection H1 as H1.
  - now apply decimal_inj in H1.
  - apply decimal_inj in H1.
    apply lookup_lt_Some in E1, E2. rewrite length_reverse in E1, E2. lia.
Qed.

(** ** From the buttons to the evaluation *)

(** X15: what reaches [safe_eval].  After typing, on an empty expression,
    labels that extend the expression and do not begin with U+FE0F, the
    equals button evaluates the concatenation of the labels' canonical
    texts, and on success records the concatenation of their display
    texts with the value. *)
Theorem typed_labels_reach_safe_eval `{E : Externals} (labels : list pystr) (hist : list pystr) :
  Forall (fun label => label ∉ control_labels) labels ->
  Forall (fun label => head label <> Some 0xFE0F) labels ->
  concat labels <> [] ->
  on_equals (act_all (Press <$> labels) (Session hist []))
  = match safe_eval (concat (normalize <$> labels)) allowed_funcs with
    | Raise e => Run (Session hist (concat labels)) [] (Uncaught e)
    | Return (PyNone, evs) => Run (Session hist (concat labels)) evs Completed
    | Return (PyObj result, evs) =>
        Run (Session (hist ++ [concat (transform_display <$> labels) ++ lit " = "
                                 ++ py_format result])
                     (py_str result))
            evs Rerun
    end.
Proof.
  intros Hc Hh Hne. rewrite (act_all_presses labels _ Hc).
  cbn [history expression app]. destruct (rewriting_concat labels Hh) as [Hn Hd].
  unfold on_equals. cbn [expression history].
  destruct (concat labels) as [|c rest] eqn:Hcat; [contradiction|].
  now rewrite Hn, Hd.
Qed.

Lemma typed_labels_reach_safe_eval_witness :
  on_equals (E := Mock.externals)
    (act_all (E := Mock.externals)
       (Press <$> [lit "2"; Glyph.plus_emoji; lit "3"; Glyph.multiply_emoji; lit "4"])
       Mock.fresh)
  = Run (Session [lit "2+3" ++ Glyph.times_sign ++ lit "4 = 14"] (lit "14")) [] Rerun.
Proof.
  exact (typed_labels_reach_safe_eval (E := Mock.externals)
           [lit "2"; Glyph.plus_emoji; lit "3"; Glyph.multiply_emoji; lit "4"] []
           ltac:(repeat constructor; absent_closed)
           ltac:(repeat constructor; discriminate)
           ltac:(discriminate)).
Defined.

(** The session of [sample_actions], run by run, on the test double. *)
Example sample_actions_run :
  act_all (E := Mock.externals) sample_actions Mock.typed_foo
  = Session [ lit "1+1 = 2"; lit "2+3" ++ Glyph.times_sign ++ lit "4 = 14" ] (lit "14").
Proof. reflexivity. Qed.
